(** * Fragment commands of the VS Code extension

    A shallow embedding of [packages/vscode/src/fragmentcommands.ts]:
    the three registered commands ([fragmentRefine], [fragmentPrompt],
    [fragmentNavigate]), their local helpers ([checkSaved],
    [pickTemplate], [fragmentExecute], [resolveSpec]) and the
    module-level [templatesToQuickPickItems].

    The commands are [async] functions over the extension state and the
    editor API.  They are embedded in a state-and-exception monad over a
    [World]: every [await] is a sequential composition, every call to
    the editor API appends an [Event] to the world's log, and every
    answer of the user is read from a script carried by the world. *)

From Stdlib Require Import String Ascii List Bool Arith Lia.
From stdpp Require Import gmap strings list fin_maps.
Import ListNotations.
Local Open Scope string_scope.
Local Open Scope list_scope.

(** ** Text helpers: the JavaScript string and array primitives used *)

Module Text.

Definition LF : ascii := "010"%char.

Definition is_LF (c : ascii) : bool := Ascii.eqb c LF.

(** [s.split("\n")]: never returns the empty array. *)
Fixpoint split_lf (s : string) : list string :=
  match s with
  | EmptyString => [EmptyString]
  | String c rest =>
      if is_LF c then EmptyString :: split_lf rest
      else match split_lf rest with
           | [] => [String c EmptyString]
           | h :: t => String c h :: t
           end
  end.

(** [lines.join("\n")]. *)
Fixpoint join_lf (lines : list string) : string :=
  match lines with
  | [] => EmptyString
  | [l] => l
  | l :: rest => l +:+ String LF (join_lf rest)
  end.

(** [lines.splice(start, 0, item)] for a non-negative [start]:
    JavaScript clamps a start beyond the end to the length. *)
Definition splice_insert {A} (start : nat) (item : A) (lines : list A)
  : list A :=
  take start lines ++ item :: drop start lines.

Fixpoint has_LF (s : string) : bool :=
  match s with
  | EmptyString => false
  | String c rest => is_LF c || has_LF rest
  end.

(** ASCII lower-casing, as the [i] flag of a regular expression
    compares the letters of the pattern. *)
Definition lower (c : ascii) : ascii :=
  let n := nat_of_ascii c in
  if ((65 <=? n)%nat && (n <=? 90)%nat)%bool then ascii_of_nat (n + 32) else c.

Fixpoint lower_string (s : string) : string :=
  match s with
  | EmptyString => EmptyString
  | String c rest => String (lower c) (lower_string rest)
  end.

Fixpoint ends_with (suffix s : string) : bool :=
  String.eqb s suffix ||
  match s with
  | EmptyString => false
  | String _ rest => ends_with suffix rest
  end.

(** [/\.gpspec\.md$/i.test(s)]. *)
Definition is_gpspec_path (s : string) : bool :=
  ends_with ".gpspec.md" (lower_string s).

(** [Utils.basename(vscode.Uri.file(p))] of the [vscode-uri] package,
    for the slash-separated paths of the model: the text after the
    last slash. *)
Fixpoint basename_from (acc : string) (s : string) : string :=
  match s with
  | EmptyString => acc
  | String c rest =>
      if Ascii.eqb c "/"%char then basename_from rest rest
      else basename_from acc rest
  end.

Definition basename (s : string) : string := basename_from s s.

End Text.

(** ** Data model (the types imported from [coarch-core]) *)

Definition CharPosition : Type := nat * nat.

Record PromptTemplate := mkPromptTemplate {
  id : string;
  title : string;
  description : option string;
  group : string
}.

(** What this module reads through the back-reference [fragment.file]:
    [file.filename] and the templates behind
    [file.project.getTemplate]. *)
Record FileRef := mkFileRef {
  file_filename : string;
  file_project_templates : list PromptTemplate
}.

(** A fragment; [parent] is absent for a root.  [references] holds the
    [filename] of each entry of [fragment.references], and
    [applicableTemplates] the result of the method of that name. *)
#[warnings="-register-all"]
Inductive Fragment : Type := mkFragment {
  fullId : string;
  frag_title : string;
  startPos : CharPosition;
  endPos : CharPosition;
  file : FileRef;
  references : list string;
  applicableTemplates : list PromptTemplate;
  parent : option Fragment
}.

Record TextFile := mkTextFile {
  filename : string;
  roots : list Fragment;
  fragments : list Fragment
}.

Record Project := mkProject {
  rootFiles : list TextFile;
  fragmentByFullId : gmap string Fragment;
  templates : list PromptTemplate
}.

Record AiRequestOptions := mkAiRequestOptions {
  opt_fragment : option Fragment;
  opt_template : option PromptTemplate;
  opt_label : string
}.

Record AiRequest := mkAiRequest {
  options : AiRequestOptions
}.

(** ** Helpers of [coarch-core] *)

Module Core.

(** Modelled from the spec: [rootFragment] of the [coarch-core]
    package.  "[rootFragment(f)] walks [parent] links to the unique
    ancestor with no parent, and this walk always terminates". *)
Fixpoint root_of (f : Fragment) : Fragment :=
  match parent f with
  | None => f
  | Some p => root_of p
  end.

(** The callers test the result of [rootFragment(fragment)] with
    [if (!fragment)]: an absent fragment is handed back absent. *)
Definition rootFragment (fragment : option Fragment) : option Fragment :=
  root_of <$> fragment.

(** The loose identifier handed to the commands:
    [Fragment | string | vscode.Uri], or [undefined] ([None]). *)
Inductive FragmentRef :=
| RefFragment (f : Fragment)
| RefString (s : string)
| RefUri (fsPath : string).

(** Modelled from the spec: [Project.resolveFragment] of the
    [coarch-core] package.  A fragment value or an id string is looked
    up in [fragmentByFullId] and fails when the id is not present; the
    path of a specification document yields the first declared root of
    that document; an absent identifier yields nothing. *)
Definition resolveFragment (p : Project) (frag : option FragmentRef)
  : option Fragment :=
  match frag with
  | None => None
  | Some (RefFragment f) => fragmentByFullId p !! fullId f
  | Some (RefString s) =>
      match fragmentByFullId p !! s with
      | Some f => Some f
      | None =>
          if Text.is_gpspec_path s then
            match List.find (fun f => String.eqb (filename f) s)
                            (rootFiles p) with
            | Some f => head (roots f)
            | None => None
            end
          else None
      end
  | Some (RefUri _) => None
  end.

(** Modelled from the spec: [Project.getTemplate] of [coarch-core];
    the [id] of a template is unique, so the lookup takes the first
    template of that id. *)
Definition getTemplate (ts : list PromptTemplate) (templateId : string)
  : option PromptTemplate :=
  List.find (fun t => String.eqb (id t) templateId) ts.

(** Modelled from the spec: [templateGroup] of [coarch-core], the
    [group] attribute of the template. *)
Definition templateGroup (t : PromptTemplate) : string := group t.

Fixpoint groupBy_add {A} (k : string) (v : A)
    (cats : list (string * list A)) : list (string * list A) :=
  match cats with
  | [] => [(k, [v])]
  | (k', vs) :: rest =>
      if String.eqb k' k then (k', vs ++ [v]) :: rest
      else (k', vs) :: groupBy_add k v rest
  end.

(** Modelled from the spec: [groupBy] of [coarch-core].  The object it
    returns is read with [for .. in]; it is kept as the list of its
    keys with their members, "group order = first-seen order while
    iterating the input sequence", members in input order. *)
Definition groupBy {A} (l : list A) (key : A -> string)
  : list (string * list A) :=
  fold_left (fun cats x => groupBy_add (key x) x cats) l [].

End Core.

(** ** Picker items *)

Inductive QuickPickItemKind := Separator | Default.

Inductive TemplateAction := ActionCreate | ActionDiscussions.

(** [TemplateQuickPickItem]: a [vscode.QuickPickItem] with an optional
    [template] and an optional [action]. *)
Record TemplateQuickPickItem := mkTemplateQuickPickItem {
  label : string;
  item_description : option string;
  kind : option QuickPickItemKind;
  template : option PromptTemplate;
  action : option TemplateAction
}.

Definition separatorItem (l : string) : TemplateQuickPickItem :=
  mkTemplateQuickPickItem l None (Some Separator) None None.

Definition templateItem (t : PromptTemplate) : TemplateQuickPickItem :=
  mkTemplateQuickPickItem
    (title t)
    (Some (id t +:+ " " +:+ default "" (description t)))
    None (Some t) None.

Definition createItem : TemplateQuickPickItem :=
  mkTemplateQuickPickItem
    "Create a new GPTool script..."
    (Some "Create a new gptool script in the current workspace.")
    None None (Some ActionCreate).

Definition discussionsItem : TemplateQuickPickItem :=
  mkTemplateQuickPickItem
    "View GPTools Discussions..."
    (Some "Open the Discussions tab in the GPTools GitHub.")
    None None (Some ActionDiscussions).

Definition templatesToQuickPickItems (templates : list PromptTemplate)
  : list TemplateQuickPickItem :=
  let cats := Core.groupBy templates Core.templateGroup in
  let items :=
    flat_map (fun cat => separatorItem (fst cat) :: map templateItem (snd cat))
             cats in
  items ++ [separatorItem ""; createItem; discussionsItem].

(** ** The world: extension state, editor, file system, user *)

Record TextDocument := mkTextDocument {
  fsPath : string;
  isDirty : bool
}.

(** The observable calls of a command, in the order they are made. *)
Inductive Event :=
| EvShowErrorMessage (message : string)
| EvShowInformationMessage (message : string)
| EvShowQuickPick (pick_title : string) (labels : list string)
| EvShowInputBox (box_title prompt : string)
| EvExecuteCommand (command : string)
| EvOpenExternal (url : string)
| EvParseWorkspace
| EvParseDocument (path : string)
| EvCancelAiRequest
| EvRequestAI (opts : AiRequestOptions)
| EvSaveAllTextDocuments
| EvReadFile (path : string)
| EvWriteFile (path content : string)
| EvShowTextDocument (path : string)
| EvSetSelection (pos : CharPosition)
| EvRevealRange (pos : CharPosition).

(** [inflight] counts the generation calls that were started and were
    neither aborted nor finished.  [pickAnswers] and [inputAnswers] are
    the answers the user will give to the next pickers (an index into
    the items shown, or a dismissal) and input boxes. *)
Record World := mkWorld {
  project : Project;
  aiRequest : option AiRequest;
  inflight : nat;
  textDocuments : list TextDocument;
  visibleTextEditors : list TextDocument;
  files : gmap string string;
  pickAnswers : list (option nat);
  inputAnswers : list (option string);
  log : list Event
}.

Definition emit (e : Event) (w : World) : World :=
  mkWorld (project w) (aiRequest w) (inflight w) (textDocuments w)
          (visibleTextEditors w) (files w) (pickAnswers w) (inputAnswers w)
          (log w ++ [e]).

Definition set_project (p : Project) (w : World) : World :=
  mkWorld p (aiRequest w) (inflight w) (textDocuments w)
          (visibleTextEditors w) (files w) (pickAnswers w) (inputAnswers w)
          (log w).

Definition set_request (r : option AiRequest) (n : nat) (w : World) : World :=
  mkWorld (project w) r n (textDocuments w)
          (visibleTextEditors w) (files w) (pickAnswers w) (inputAnswers w)
          (log w).

Definition set_documents (docs editors : list TextDocument) (w : World)
  : World :=
  mkWorld (project w) (aiRequest w) (inflight w) docs editors
          (files w) (pickAnswers w) (inputAnswers w) (log w).

Definition set_files (fs : gmap string string) (w : World) : World :=
  mkWorld (project w) (aiRequest w) (inflight w) (textDocuments w)
          (visibleTextEditors w) fs (pickAnswers w) (inputAnswers w) (log w).

Definition set_pickAnswers (a : list (option nat)) (w : World) : World :=
  mkWorld (project w) (aiRequest w) (inflight w) (textDocuments w)
          (visibleTextEditors w) (files w) a (inputAnswers w) (log w).

Definition set_inputAnswers (a : list (option string)) (w : World) : World :=
  mkWorld (project w) (aiRequest w) (inflight w) (textDocuments w)
          (visibleTextEditors w) (files w) (pickAnswers w) a (log w).

(** ** The command monad: state and exceptions *)

Inductive Outcome (A : Type) :=
| Returned (a : A)
| Thrown (error : string).
Arguments Returned {A} a.
Arguments Thrown {A} error.

Definition Cmd (A : Type) : Type := World -> Outcome A * World.

Definition ret {A} (a : A) : Cmd A := fun w => (Returned a, w).

Definition throw {A} (error : string) : Cmd A := fun w => (Thrown error, w).

Definition bind {A B} (m : Cmd A) (k : A -> Cmd B) : Cmd B :=
  fun w =>
    match m w with
    | (Returned a, w') => k a w'
    | (Thrown e, w') => (Thrown e, w')
    end.

Definition perform (f : World -> World) : Cmd unit :=
  fun w => (Returned tt, f w).

Definition gets {A} (f : World -> A) : Cmd A :=
  fun w => (Returned (f w), w).

Declare Scope cmd_scope.
Delimit Scope cmd_scope with cmd.
Notation "x <- m ;; k" := (bind m (fun x => k))
  (at level 100, m at next level, right associativity) : cmd_scope.
Notation "m ;;; k" := (bind m (fun _ => k))
  (at level 100, right associativity) : cmd_scope.
Local Open Scope cmd_scope.

(** The world a command leaves, and the events it added. *)
Definition exec {A} (m : Cmd A) (w : World) : World := snd (m w).
Definition result {A} (m : Cmd A) (w : World) : Outcome A := fst (m w).
Definition trace {A} (m : Cmd A) (w : World) : list Event :=
  drop (length (log w)) (log (exec m w)).

(** ** The editor API ([vscode]) *)

Definition showErrorMessage (message : string) : Cmd unit :=
  perform (emit (EvShowErrorMessage message)).

Definition showInformationMessage (message : string) : Cmd unit :=
  perform (emit (EvShowInformationMessage message)).

(** [vscode.window.showQuickPick(items, { title })]: the user picks one
    of the items shown or dismisses the picker. *)
Definition showQuickPick {A} (items : list A) (label_of : A -> string)
    (pick_title : string) : Cmd (option A) :=
  fun w =>
    let w1 := emit (EvShowQuickPick pick_title (map label_of items)) w in
    match pickAnswers w1 with
    | [] => (Returned None, w1)
    | answer :: rest =>
        (Returned (i ← answer; items !! i), set_pickAnswers rest w1)
    end.

Definition showInputBox (box_title prompt : string) : Cmd (option string) :=
  fun w =>
    let w1 := emit (EvShowInputBox box_title prompt) w in
    match inputAnswers w1 with
    | [] => (Returned None, w1)
    | answer :: rest => (Returned answer, set_inputAnswers rest w1)
    end.

Definition executeCommand (command : string) : Cmd unit :=
  perform (emit (EvExecuteCommand command)).

Definition openExternal (url : string) : Cmd unit :=
  perform (emit (EvOpenExternal url)).

(** [vscode.workspace.fs.readFile]: rejects for a file that is absent. *)
Definition readFile (path : string) : Cmd string :=
  perform (emit (EvReadFile path)) ;;;
  fs <- gets files ;;
  match fs !! path with
  | Some content => ret content
  | None => throw "FileNotFound"
  end.

Definition writeFile (path content : string) : Cmd unit :=
  perform (fun w => set_files (<[path := content]> (files w))
                              (emit (EvWriteFile path content) w)).

Definition showTextDocument (path : string) : Cmd unit :=
  perform (emit (EvShowTextDocument path)).

Definition setSelection (pos : CharPosition) : Cmd unit :=
  perform (emit (EvSetSelection pos)).

Definition revealRange (pos : CharPosition) : Cmd unit :=
  perform (emit (EvRevealRange pos)).

(** JavaScript truthiness of a [string | undefined]. *)
Definition truthy (s : option string) : bool :=
  match s with
  | None => false
  | Some text => negb (String.eqb text "")
  end.

(** ** The commands *)

Section Commands.

(** The parser of [coarch-core] behind [state.parseWorkspace] and
    [state.parseDocument]: what a parse of the files on disk, and of
    one open document, yields. *)
Variable parseProject : gmap string string -> Project.
Variable parseText : TextDocument -> option Project.

(** *** [./state] and [./fs] *)

(** Modelled from the spec: [ExtensionState.parseWorkspace] of
    [./state]; a re-parse replaces the project ("an atomic swap"). *)
Definition parseWorkspace : Cmd unit :=
  perform (fun w => set_project (parseProject (files w))
                                (emit EvParseWorkspace w)).

(** Modelled from the spec: [ExtensionState.parseDocument] of
    [./state]; "the store parses it fresh", with no other effect. *)
Definition parseDocument (document : TextDocument) : Cmd (option Project) :=
  perform (emit (EvParseDocument (fsPath document))) ;;;
  ret (parseText document).

(** Modelled from the spec: [ExtensionState.cancelAiRequest] of
    [./state]; "if Running, aborts the underlying generation and
    transitions to Idle; if already Idle/Completed, is a no-op".  The
    record of the request stays readable: [fragmentRefine] reads it
    after cancelling. *)
Definition cancelAiRequest : Cmd unit :=
  perform (fun w => set_request (aiRequest w) 0 (emit EvCancelAiRequest w)).

(** Modelled from the spec: [ExtensionState.requestAI] of [./state];
    "produces a new AiRequest replacing any previous record and
    transitions to Running"; "the controller does not implicitly
    cancel". *)
Definition requestAI (opts : AiRequestOptions) : Cmd unit :=
  perform (fun w => set_request (Some (mkAiRequest opts)) (S (inflight w))
                                (emit (EvRequestAI opts) w)).

(** Modelled from the spec: [saveAllTextDocuments] of [./fs]; after it
    no open document is dirty.  The text of an open document is not
    part of the world, only its path and its dirty flag. *)
Definition saveAllTextDocuments : Cmd unit :=
  let saved d := mkTextDocument (fsPath d) false in
  perform (fun w => set_documents (map saved (textDocuments w))
                                  (map saved (visibleTextEditors w))
                                  (emit EvSaveAllTextDocuments w)).

(** *** [checkSaved] *)

Definition checkSaved : Cmd bool :=
  docs <- gets textDocuments ;;
  if existsb isDirty docs then
    showErrorMessage
      "GPTool cancelled. Please save all files before running GPTools." ;;;
    ret false
  else
    parseWorkspace ;;;
    ret true.

(** *** [pickTemplate] *)

Definition pickTemplate (fragment : Fragment)
    (filter : option (PromptTemplate -> bool))
  : Cmd (option PromptTemplate) :=
  let filter := default (fun _ => true) filter in
  let templates := List.filter filter (applicableTemplates fragment) in
  picked <- showQuickPick (templatesToQuickPickItems templates) label
              ("Pick a GPTool to apply to " +:+ frag_title fragment) ;;
  match picked ≫= action with
  | Some ActionCreate =>
      executeCommand "coarch.prompt.create" ;;;
      ret None
  | Some ActionDiscussions =>
      openExternal "https://github.com/microsoft/gptools/discussions" ;;;
      ret None
  | None => ret (picked ≫= template)
  end.

(** *** [fragmentExecute] *)

Definition fragmentExecute (fragment : option Fragment)
    (label templateId : string) : Cmd unit :=
  match fragment with
  | None => ret tt
  | Some fragment =>
      p <- gets project ;;
      let fragment :=
        default fragment (fragmentByFullId p !! fullId fragment) in
      let template :=
        Core.getTemplate (file_project_templates (file fragment))
                         templateId in
      cancelAiRequest ;;;
      requestAI (mkAiRequestOptions (Some fragment) template label)
  end.

(** *** [resolveSpec] *)

(** The items of the "Select GPSpec file" picker. *)
Record SpecPickItem := mkSpecPickItem {
  spec_label : string;
  spec_file : option TextFile
}.

(** [f.roots.some((r) => r.references.some((ref) => ref.filename === frag))] *)
Definition references_path (frag : string) (f : TextFile) : bool :=
  existsb (fun r => existsb (fun ref => String.eqb ref frag) (references r))
          (roots f).

Definition specPickItems (p : Project) (frag : string) : list SpecPickItem :=
  map (fun f => mkSpecPickItem (Text.basename (filename f)) (Some f))
      (List.filter (references_path frag) (rootFiles p))
  ++ [mkSpecPickItem "Create new GPSpec file..." None].

(** The "next logic" and the [vscode.Uri] case: the identifier after
    the first two statements of [resolveSpec]. *)
Definition normalizeRef (request : option AiRequest)
    (frag : option Core.FragmentRef) : option Core.FragmentRef :=
  let frag :=
    match frag, request with
    | None, Some r =>
        (fun previous => Core.RefString (fullId previous))
          <$> opt_fragment (options r)
    | _, _ => frag
    end in
  match frag with
  | Some (Core.RefUri path) => Some (Core.RefString path)
  | _ => frag
  end.

(** The path of the [typeof frag === "string" && !/\.gpspec\.md$/i.test(frag)]
    branch, when the identifier takes it. *)
Definition referencedPath (frag : option Core.FragmentRef) : option string :=
  match frag with
  | Some (Core.RefString s) =>
      if Text.is_gpspec_path s then None else Some s
  | _ => None
  end.

Definition resolveSpec (frag : option Core.FragmentRef)
  : Cmd (option Fragment) :=
  request <- gets aiRequest ;;
  let frag := normalizeRef request frag in
  project <- gets project ;;
  match referencedPath frag with
  | Some path =>
      let gpspecs := List.filter (references_path path) (rootFiles project) in
      pick <- (if (length gpspecs =? 0)%nat
               then ret (Some (mkSpecPickItem "" None))
               else showQuickPick (specPickItems project path) spec_label
                                  "Select GPSpec file") ;;
      match pick with
      | None => ret None
      | Some pick =>
          match spec_file pick with
          | Some f => ret (Core.rootFragment (head (roots f)))
          | None =>
              editors <- gets visibleTextEditors ;;
              match List.find (fun d => String.eqb (fsPath d) path)
                              editors with
              | Some document =>
                  prj <- parseDocument document ;;
                  fragment <-
                    match prj with
                    | None => ret None
                    | Some prj =>
                        match rootFiles prj with
                        | [] => throw "TypeError"
                        | f0 :: _ => ret (head (fragments f0))
                        end
                    end ;;
                  ret (Core.rootFragment fragment)
              | None => ret (Core.rootFragment None)
              end
          end
      end
  | None => ret (Core.rootFragment (Core.resolveFragment project frag))
  end.

(** *** [fragmentPrompt] *)

Definition fragmentPrompt (frag : option Core.FragmentRef)
    (template : option PromptTemplate) : Cmd unit :=
  saved <- checkSaved ;;
  if negb saved then ret tt
  else
    cancelAiRequest ;;;
    fragment <- resolveSpec frag ;;
    match fragment with
    | None =>
        showErrorMessage
          "GPTools - sorry, we could not find where to apply the tool. Please try to launch GPTools from the editor."
    | Some fragment =>
        template <- match template with
                    | Some t => ret (Some t)
                    | None => pickTemplate fragment None
                    end ;;
        match template with
        | None => ret tt
        | Some template =>
            fragmentExecute (Some fragment) (title template) (id template)
        end
    end.

(** *** [fragmentRefine] *)

(** Lines 164-167: the text written back for a refinement. *)
Definition refinedContent (content : string) (endLine : nat)
    (refinement : string) : string :=
  let lines := Text.split_lf content in
  let lines := Text.splice_insert endLine ("-   " +:+ refinement) lines in
  Text.join_lf lines.

Definition fragmentRefine : Cmd unit :=
  cancelAiRequest ;;;
  fragment <- resolveSpec None ;;
  match fragment with
  | None => ret tt
  | Some fragment =>
      request <- gets aiRequest ;;
      match request with
      | None => throw "TypeError"
      | Some request =>
          let template := opt_template (options request) in
          refinement <-
            showInputBox
              "What do you want to add to your spec?"
              "Your recommendation will be added at the end of the gpspec.md file; then the tool will be started again." ;;
          if negb (truthy refinement) then ret tt
          else
            let refinement := default "" refinement in
            saveAllTextDocuments ;;;
            let uri := file_filename (file fragment) in
            content <- readFile uri ;;
            let content :=
              refinedContent content (fst (endPos fragment)) refinement in
            writeFile uri content ;;;
            saveAllTextDocuments ;;;
            showInformationMessage
              ("GPTools - Added refinement in "
                 +:+ Text.basename (file_filename (file fragment))
                 +:+ ". Please wait for the tool to start again.") ;;;
            fragmentPrompt (Some (Core.RefFragment fragment)) template
      end
  end.

(** *** [fragmentNavigate] *)

Definition fragmentNavigate (fragment : option Core.FragmentRef)
  : Cmd unit :=
  p <- gets project ;;
  match Core.resolveFragment p fragment with
  | None => ret tt
  | Some fragment =>
      showTextDocument (file_filename (file fragment)) ;;;
      setSelection (startPos fragment) ;;;
      revealRange (startPos fragment)
  end.

End Commands.

(** ** Replaying a trace on the request controller *)

(** The number of generation calls in flight after an event, following
    [cancelAiRequest] and [requestAI]. *)
Definition running_step (n : nat) (e : Event) : nat :=
  match e with
  | EvCancelAiRequest => 0
  | EvRequestAI _ => S n
  | _ => n
  end.

Definition running_after (n : nat) (evs : list Event) : nat :=
  fold_left running_step evs n.

(** At most one generation call is in flight before the trace and after
    each of its events. *)
Fixpoint at_most_one (n : nat) (evs : list Event) : bool :=
  (n <=? 1)%nat &&
  match evs with
  | [] => true
  | e :: rest => at_most_one (running_step n e) rest
  end.

(** Every [EvRequestAI] of the trace comes directly after an
    [EvCancelAiRequest]; [cancelled] tells whether the event before the
    trace was one. *)
Fixpoint cancel_first (cancelled : bool) (evs : list Event) : bool :=
  match evs with
  | [] => true
  | EvRequestAI _ :: rest => cancelled && cancel_first false rest
  | EvCancelAiRequest :: rest => cancel_first true rest
  | _ :: rest => cancel_first false rest
  end.

Definition is_request (e : Event) : bool :=
  match e with EvRequestAI _ => true | _ => false end.

Definition is_cancel (e : Event) : bool :=
  match e with EvCancelAiRequest => true | _ => false end.

Definition is_write (e : Event) : bool :=
  match e with EvWriteFile _ _ => true | _ => false end.

Definition is_pick (e : Event) : bool :=
  match e with EvShowQuickPick _ _ => true | _ => false end.

(** ** Relations kept by commands *)

(** [steps R m]: from every world, [m] adds some events to the log and
    leaves a world related by [R] to the one it started from. *)
Definition steps (R : World -> list Event -> World -> Prop)
    {A} (m : Cmd A) : Prop :=
  forall w, exists evs,
    log (exec m w) = log w ++ evs /\ R w evs (exec m w).

(** Kept by a command that writes no file and reads no input box. *)
Definition unwritten (w : World) (evs : list Event) (w' : World) : Prop :=
  Forall (fun e => is_write e = false) evs /\
  inputAnswers w' = inputAnswers w.

(** Kept by a command that dispatches requests only right after a
    cancellation: the count of running calls is the one replayed from
    the events, every request follows a cancellation, and from at most
    one running call there is at most one all along. *)
Definition orderly (w : World) (evs : list Event) (w' : World) : Prop :=
  inflight w' = running_after (inflight w) evs /\
  cancel_first false evs = true /\
  (forall n, n <= 1 -> at_most_one n evs = true).

(** What a run of [m] from [w] shows when it dispatches requests only
    right after a cancellation: the count of running calls it leaves is
    the one replayed from its events, each [EvRequestAI] comes directly
    after an [EvCancelAiRequest], and at most one call is running
    before the run and after each of its events. *)
Definition cancels_before_requests {A} (w : World) (m : Cmd A) : Prop :=
  inflight (exec m w) = running_after (inflight w) (trace m w) /\
  cancel_first false (trace m w) = true /\
  at_most_one (inflight w) (trace m w) = true.

(** ** Sample data *)

Module Sample.

Definition gen : PromptTemplate :=
  mkPromptTemplate "gen" "Generate code" (Some "writes the code") "coding".

Definition review : PromptTemplate :=
  mkPromptTemplate "review" "Review" None "quality".

Definition fileA : FileRef := mkFileRef "a.gpspec.md" [gen; review].
Definition fileB : FileRef := mkFileRef "b.gpspec.md" [gen; review].

Definition rootA : Fragment :=
  mkFragment "root@a.gpspec.md" "Spec A" (0, 0) (3, 0) fileA
             ["util.ts"] [gen; review] None.

Definition childA : Fragment :=
  mkFragment "item@a.gpspec.md" "Item" (1, 0) (2, 0) fileA
             [] [gen] (Some rootA).

Definition rootB : Fragment :=
  mkFragment "root@b.gpspec.md" "Spec B" (0, 0) (1, 0) fileB
             ["other.ts"] [gen] None.

(** A handle whose [fullId] the current project no longer knows. *)
Definition stale : Fragment :=
  mkFragment "old@a.gpspec.md" "Old" (0, 0) (4, 0) fileA
             [] [gen] None.

Definition docA : TextFile := mkTextFile "a.gpspec.md" [rootA] [rootA; childA].
Definition docB : TextFile := mkTextFile "b.gpspec.md" [rootB] [rootB].

Definition sampleProject : Project :=
  mkProject [docA; docB]
            (<["root@a.gpspec.md" := rootA]>
               (<["item@a.gpspec.md" := childA]>
                  (<["root@b.gpspec.md" := rootB]> ∅)))
            [gen; review].

(** A document of five lines. *)
Definition fiveLines : string :=
  Text.join_lf ["# Spec A"; "-   first"; "-   second"; ""; "# Tail"].

Definition disk : gmap string string :=
  <["a.gpspec.md" := fiveLines]> (<["b.gpspec.md" := "# Spec B"]> ∅).

Definition parseProject (fs : gmap string string) : Project := sampleProject.
Definition parseText (d : TextDocument) : option Project := None.

Definition openA (dirty : bool) : TextDocument :=
  mkTextDocument "a.gpspec.md" dirty.

(** Nothing requested yet, all documents saved, the user dismisses
    every picker and input box. *)
Definition idle : World :=
  mkWorld sampleProject None 0 [openA false] [openA false] disk [] [] [].

(** One open document is dirty. *)
Definition dirty : World :=
  mkWorld sampleProject None 0 [openA true] [openA true] disk [] [] [].

Definition lastRequest : AiRequest :=
  mkAiRequest (mkAiRequestOptions (Some rootA) (Some gen) "Generate code").

(** A request on [rootA] is running and the user will answer the input
    box with [note]. *)
Definition refining (note : option string) : World :=
  mkWorld sampleProject (Some lastRequest) 1 [openA false] [openA false]
          disk [] [note] [].

End Sample.

(** ** [prepackage.mjs] *)

Module Prepackage.

(** A JSON value; a number is kept as the text of its literal. *)
#[warnings="-register-all"]
Inductive Json : Type :=
| JNull
| JBool (b : bool)
| JNumber (literal : string)
| JString (s : string)
| JArray (items : list Json)
| JObject (members : list (string * Json)).

(** [fs.readJSON]: the members of [package.json], as the properties of
    a JavaScript object; a property may hold [undefined] ([None]).  The
    order of the members is not kept. *)
Definition readJSON (file : gmap string Json) : gmap string (option Json) :=
  Some <$> file.

(** [fs.writeJSON], through [JSON.stringify]: a property that holds
    [undefined] is left out. *)
Definition writeJSON (pkg : gmap string (option Json)) : gmap string Json :=
  omap (fun v => v) pkg.

(** The three statements on [pkg]: reading an absent property gives
    [undefined]. *)
Definition rename (pkg : gmap string (option Json))
  : gmap string (option Json) :=
  let pkg :=
    <["_enabledApiProposals" := default None (pkg !! "enabledApiProposals")]>
      pkg in
  let pkg := <["displayName" := Some (JString "GenAIScript")]> pkg in
  delete "enabledApiProposals" pkg.

Definition prepackage (file : gmap string Json) : gmap string Json :=
  writeJSON (rename (readJSON file)).

End Prepackage.

(** ** More relations kept by commands *)

Definition is_parse_document (e : Event) : bool :=
  match e with EvParseDocument _ => true | _ => false end.

(** Kept by a command that only asks the user to pick and parses an
    open document: the project, the request, the documents, the files
    and the answers for input boxes stay. *)
Definition resolving (w : World) (evs : list Event) (w' : World) : Prop :=
  Forall (fun e => is_pick e || is_parse_document e = true) evs /\
  project w' = project w /\
  aiRequest w' = aiRequest w /\
  inflight w' = inflight w /\
  textDocuments w' = textDocuments w /\
  visibleTextEditors w' = visibleTextEditors w /\
  files w' = files w /\
  inputAnswers w' = inputAnswers w.

(** Kept by a command that dispatches no request. *)
Definition undispatched (w : World) (evs : list Event) (w' : World) : Prop :=
  Forall (fun e => is_request e = false) evs /\
  aiRequest w' = aiRequest w.

(** Kept by a command that dispatches at most one request, as its last
    step: without a dispatch the record of the request is the one
    before, with a dispatch it is the request dispatched. *)
Definition dispatched_last (w : World) (evs : list Event) (w' : World)
  : Prop :=
  exists before,
    Forall (fun e => is_request e = false) before /\
    ((evs = before /\ aiRequest w' = aiRequest w) \/
     exists opts,
       evs = before ++ [EvRequestAI opts] /\
       aiRequest w' = Some (mkAiRequest opts)).

(** Kept by a command that writes no file. *)
Definition unsaved (w : World) (evs : list Event) (w' : World) : Prop :=
  Forall (fun e => is_write e = false) evs /\
  files w' = files w.

(** A request made for the template [t]: its label is the title of
    [t], and its template is the one of the [id] of [t] in the project
    of its target. *)
Definition request_for (t : PromptTemplate) (e : Event) : Prop :=
  match e with
  | EvRequestAI opts =>
      opt_label opts = title t /\
      exists target,
        opt_fragment opts = Some target /\
        opt_template opts
          = Core.getTemplate (file_project_templates (file target)) (id t)
  | _ => True
  end.

(** Kept by a command whose requests are all made for [t]. *)
Definition requests_for (t : PromptTemplate)
    (w : World) (evs : list Event) (w' : World) : Prop :=
  Forall (request_for t) evs.

(** [steps], at one world. *)
Definition keeps (R : World -> list Event -> World -> Prop)
    {A} (m : Cmd A) (w : World) : Prop :=
  exists evs, log (exec m w) = log w ++ evs /\ R w evs (exec m w).

(** The templates carried by the items of a picker. *)
Definition item_templates (items : list TemplateQuickPickItem)
  : list PromptTemplate :=
  omap template items.

Definition has_action (i : TemplateQuickPickItem) : bool :=
  match action i with Some _ => true | None => false end.

(** ** More sample data *)

Module Scenario.

(** [Sample.idle], with the answers the user gives to the pickers. *)
Definition picking (answers : list (option nat)) : World :=
  set_pickAnswers answers Sample.idle.

(** [Sample.idle], with [notes.ts] in the only visible editor. *)
Definition notesOpen : World :=
  set_documents [mkTextDocument "notes.ts" false]
                [mkTextDocument "notes.ts" false] Sample.idle.

(** A parse of an open document that yields a project without files. *)
Definition emptyParse (d : TextDocument) : option Project :=
  Some (mkProject [] ∅ []).

End Scenario.

(** * Properties *)

(** ** Lines of a text *)

Lemma split_lf_nonempty (s : string) : Text.split_lf s <> [].
Proof.
  destruct s as [|c rest]; simpl; [discriminate|].
  destruct (Text.is_LF c); [discriminate|].
  destruct (Text.split_lf rest); discriminate.
Qed.

Lemma split_lf_without_LF (s : string) :
  Forall (fun l => Text.has_LF l = false) (Text.split_lf s).
Proof.
  induction s as [|c rest IH]; simpl.
  - repeat constructor.
  - destruct (Text.is_LF c) eqn:Hc.
    + constructor; [reflexivity | exact IH].
    + destruct (Text.split_lf rest) as [|h t].
      * constructor; [simpl; rewrite Hc; reflexivity | constructor].
      * inversion IH as [|? ? Hh Ht]; subst.
        constructor; [simpl; rewrite Hc; exact Hh | exact Ht].
Qed.

Lemma has_LF_append (a b : string) :
  Text.has_LF (a +:+ b) = Text.has_LF a || Text.has_LF b.
Proof.
  induction a as [|c a IH]; simpl; [reflexivity|].
  rewrite IH, orb_assoc; reflexivity.
Qed.

Lemma split_lf_single (l : string) :
  Text.has_LF l = false -> Text.split_lf l = [l].
Proof.
  induction l as [|c l IH]; simpl; intros H; [reflexivity|].
  apply orb_false_iff in H as [Hc Hl].
  rewrite Hc, (IH Hl); reflexivity.
Qed.

Lemma split_lf_cons_line (l rest : string) :
  Text.has_LF l = false ->
  Text.split_lf (l +:+ String Text.LF rest) = l :: Text.split_lf rest.
Proof.
  induction l as [|c l IH]; simpl; intros H.
  - reflexivity.
  - apply orb_false_iff in H as [Hc Hl].
    rewrite Hc, (IH Hl); reflexivity.
Qed.

Lemma split_join_lf (lines : list string) :
  lines <> [] ->
  Forall (fun l => Text.has_LF l = false) lines ->
  Text.split_lf (Text.join_lf lines) = lines.
Proof.
  induction lines as [|l rest IH]; intros Hne Hall; [congruence|].
  inversion Hall as [|? ? Hl Hrest]; subst.
  destruct rest as [|l2 rest].
  - simpl; apply split_lf_single; exact Hl.
  - change (Text.join_lf (l :: l2 :: rest))
      with (l +:+ String Text.LF (Text.join_lf (l2 :: rest))).
    rewrite split_lf_cons_line by exact Hl.
    rewrite IH by (congruence || exact Hrest); reflexivity.
Qed.

Lemma splice_insert_length {A} (start : nat) (item : A) (lines : list A) :
  length (Text.splice_insert start item lines) = S (length lines).
Proof.
  unfold Text.splice_insert.
  rewrite length_app; simpl.
  rewrite length_take, length_drop; lia.
Qed.

Lemma splice_insert_at {A} (start : nat) (item : A) (lines : list A) :
  start <= length lines ->
  Text.splice_insert start item lines !! start = Some item.
Proof.
  intros H; unfold Text.splice_insert.
  rewrite lookup_app_r by (rewrite length_take; lia).
  rewrite length_take, Nat.min_l by lia.
  rewrite Nat.sub_diag; reflexivity.
Qed.

Lemma splice_insert_before {A} (start i : nat) (item : A) (lines : list A) :
  i < start -> start <= length lines ->
  Text.splice_insert start item lines !! i = lines !! i.
Proof.
  intros Hi H; unfold Text.splice_insert.
  rewrite lookup_app_l by (rewrite length_take; lia).
  apply lookup_take_lt; exact Hi.
Qed.

Lemma splice_insert_after {A} (start i : nat) (item : A) (lines : list A) :
  start <= i -> start <= length lines ->
  Text.splice_insert start item lines !! S i = lines !! i.
Proof.
  intros Hi H; unfold Text.splice_insert.
  rewrite lookup_app_r by (rewrite length_take; lia).
  rewrite length_take, Nat.min_l by lia.
  replace (S i - start) with (S (i - start)) by lia.
  simpl. rewrite lookup_drop. f_equal; lia.
Qed.

(** ** The template picker *)

Lemma groupBy_add_members {A} (k : string) (v : A) cats (x : A) :
  In x (flat_map snd (Core.groupBy_add k v cats)) <->
  x = v \/ In x (flat_map snd cats).
Proof.
  induction cats as [|[k' vs] rest IH]; simpl.
  - intuition.
  - destruct (String.eqb k' k); simpl.
    + rewrite !in_app_iff; simpl; intuition.
    + rewrite !in_app_iff, IH; intuition.
Qed.

Lemma groupBy_fold_members {A} (key : A -> string) (l : list A) cats (x : A) :
  In x (flat_map snd
          (fold_left (fun cats y => Core.groupBy_add (key y) y cats) l cats)) <->
  In x l \/ In x (flat_map snd cats).
Proof.
  revert cats; induction l as [|y l IH]; intros cats; simpl.
  - intuition.
  - rewrite IH, groupBy_add_members; intuition.
Qed.

Lemma groupBy_members {A} (key : A -> string) (l : list A) (x : A) :
  In x (flat_map snd (Core.groupBy l key)) <-> In x l.
Proof.
  unfold Core.groupBy; rewrite groupBy_fold_members; simpl; intuition.
Qed.

Lemma group_items_no_action (cats : list (string * list PromptTemplate)) :
  Forall (fun i => action i = None)
         (flat_map (fun cat => separatorItem (fst cat)
                                 :: map templateItem (snd cat)) cats).
Proof.
  induction cats as [|cat rest IH]; simpl; [constructor|].
  constructor; [reflexivity|].
  apply Forall_app; split; [|exact IH].
  apply Forall_forall; intros i Hi.
  apply list_elem_of_In, in_map_iff in Hi as (t & <- & _); reflexivity.
Qed.

Lemma group_items_members (cats : list (string * list PromptTemplate)) t :
  In t (flat_map snd cats) ->
  In (templateItem t)
     (flat_map (fun cat => separatorItem (fst cat)
                             :: map templateItem (snd cat)) cats).
Proof.
  induction cats as [|cat rest IH]; simpl; [tauto|].
  rewrite !in_app_iff; intros [H|H].
  - right; left; apply in_map; exact H.
  - right; right; apply IH; exact H.
Qed.

(** C6. For every list of templates, the empty one included, the items
    shown by the picker are not empty and end with the two escape
    actions, "create" then "discussions"; everything before them (the
    groups of the templates, which hold an item for each template given,
    and the closing separator) carries no action. *)
Theorem templatesToQuickPickItems_ends_with_actions
    (templates : list PromptTemplate) :
  templatesToQuickPickItems templates <> [] /\
  templatesToQuickPickItems [] =
    [separatorItem ""; createItem; discussionsItem] /\
  exists groups,
    templatesToQuickPickItems templates
      = groups ++ [createItem; discussionsItem] /\
    Forall (fun i => action i = None) groups /\
    (forall t, In t templates -> In (templateItem t) groups) /\
    action createItem = Some ActionCreate /\
    action discussionsItem = Some ActionDiscussions.
Proof.
  unfold templatesToQuickPickItems.
  set (cats := Core.groupBy templates Core.templateGroup).
  set (items := flat_map _ cats).
  split; [|split].
  - destruct items; discriminate.
  - reflexivity.
  - exists (items ++ [separatorItem ""]).
    split; [rewrite <- app_assoc; reflexivity|].
    split; [|split; [|split; reflexivity]].
    + apply Forall_app; split.
      * apply group_items_no_action.
      * repeat constructor.
    + intros t Ht. apply in_or_app; left.
      apply group_items_members, groupBy_members; exact Ht.
Qed.

(** ** The refinement text *)

(** C4, as amended. For a note without a line feed, the text written
    back splits into the lines of the document with exactly one line
    added, the list item made of a dash, three spaces and the note; it
    sits at the line index [endPos[0]] of the fragment when the document
    has that many lines (after the last line otherwise), and the lines
    before and after it are those of the document, in order. *)
Theorem refinedContent_inserts_list_item
    (content : string) (endLine : nat) (note : string) :
  Text.has_LF note = false ->
  let lines := Text.split_lf content in
  let item := "-   " +:+ note in
  let lines' := Text.split_lf (refinedContent content endLine note) in
  lines' = take endLine lines ++ item :: drop endLine lines /\
  length lines' = S (length lines) /\
  (endLine <= length lines ->
   lines' !! endLine = Some item /\
   (forall i, i < endLine -> lines' !! i = lines !! i) /\
   (forall i, endLine <= i -> lines' !! S i = lines !! i)).
Proof.
  intros Hnote lines item lines'.
  assert (Hsplit : lines' = Text.splice_insert endLine item lines).
  { subst lines'; unfold refinedContent.
    apply split_join_lf.
    - unfold Text.splice_insert; destruct (take endLine _); discriminate.
    - unfold Text.splice_insert.
      pose proof (split_lf_without_LF content) as Hall.
      apply Forall_app; split; [apply Forall_take; exact Hall|].
      constructor; [|apply Forall_drop; exact Hall].
      subst item; rewrite has_LF_append, Hnote; reflexivity. }
  rewrite Hsplit.
  split; [reflexivity|].
  split; [apply splice_insert_length|].
  intros Hle; split; [|split].
  - apply splice_insert_at; exact Hle.
  - intros i Hi; apply splice_insert_before; assumption.
  - intros i Hi; apply splice_insert_after; assumption.
Qed.

(** The five-line document of the specification's example: the new line
    is [-   do X] at index 3. *)
Lemma refinedContent_five_lines :
  Text.has_LF "do X" = false /\
  Text.split_lf (refinedContent Sample.fiveLines 3 "do X")
    = ["# Spec A"; "-   first"; "-   second"; "-   do X"; ""; "# Tail"].
Proof.
  split; [reflexivity|].
  exact (proj1 (refinedContent_inserts_list_item
                  Sample.fiveLines 3 "do X" eq_refl)).
Defined.

(** C4, as stated, fails: the line added at index 3 is not [- do X]. *)
Lemma refinedContent_not_dash_space_note :
  length (Text.split_lf Sample.fiveLines) = 5 /\
  Text.split_lf (refinedContent Sample.fiveLines 3 "do X") !! 3
    <> Some "- do X".
Proof.
  split; [reflexivity|].
  vm_compute; discriminate.
Qed.

(** ** Traces *)

Lemma trace_of_log {A} (m : Cmd A) (w : World) (evs : list Event) :
  log (exec m w) = log w ++ evs -> trace m w = evs.
Proof.
  intros H; unfold trace; rewrite H; apply drop_app_length.
Qed.

Lemma root_of_is_root (f : Fragment) : parent (Core.root_of f) = None.
Proof.
  revert f; fix IH 1; intros [i t s e fl r a [p|]]; simpl.
  - apply IH.
  - reflexivity.
Qed.

Lemma rootFragment_is_root (x : option Fragment) (f : Fragment) :
  Core.rootFragment x = Some f -> parent f = None.
Proof.
  destruct x as [g|]; simpl; intros H; [|discriminate].
  injection H as <-; apply root_of_is_root.
Qed.

Ltac break_match_hyp :=
  match goal with
  | H : context [match ?x with _ => _ end] |- _ =>
      destruct x eqn:?; simpl in H
  | H : context [if ?b then _ else _] |- _ =>
      destruct b eqn:?; simpl in H
  end.

Ltac break_match_goal :=
  match goal with
  | |- context [match ?x with _ => _ end] => destruct x eqn:?; simpl
  | |- context [if ?b then _ else _] => destruct b eqn:?; simpl
  end.

(** ** Commands that keep a relation between worlds *)

Section Steps.

Variable R : World -> list Event -> World -> Prop.
Hypothesis R_refl : forall w, R w [] w.
Hypothesis R_trans :
  forall w1 w2 w3 evs1 evs2,
    R w1 evs1 w2 -> R w2 evs2 w3 -> R w1 (evs1 ++ evs2) w3.

Lemma steps_ret {A} (a : A) : steps R (ret a).
Proof.
  intros w; exists []; rewrite app_nil_r; split; [reflexivity|apply R_refl].
Qed.

Lemma steps_throw {A} (e : string) : steps R (throw (A := A) e).
Proof.
  intros w; exists []; rewrite app_nil_r; split; [reflexivity|apply R_refl].
Qed.

Lemma steps_gets {A} (f : World -> A) : steps R (gets f).
Proof.
  intros w; exists []; rewrite app_nil_r; split; [reflexivity|apply R_refl].
Qed.

Lemma steps_bind {A B} (m : Cmd A) (k : A -> Cmd B) :
  steps R m -> (forall a, steps R (k a)) -> steps R (bind m k).
Proof.
  intros Hm Hk w.
  destruct (Hm w) as (evs1 & Hlog1 & HR1).
  unfold exec, bind in *.
  destruct (m w) as [[a|e] w1]; simpl in *.
  - destruct (Hk a w1) as (evs2 & Hlog2 & HR2).
    unfold exec in Hlog2, HR2.
    exists (evs1 ++ evs2); split.
    + rewrite Hlog2, Hlog1, app_assoc; reflexivity.
    + eapply R_trans; eassumption.
  - exists evs1; split; assumption.
Qed.

End Steps.

(** One step through the structure of a command: a return, a throw, a
    read of the state, a sequence, or a case distinction. *)
Ltac steps_structure :=
  first
    [ apply steps_ret; assumption
    | apply steps_throw; assumption
    | apply steps_gets; assumption
    | apply steps_bind; [assumption | | intros ]
    | match goal with
      | |- steps _ (match ?x with _ => _ end) => destruct x
      | |- steps _ (if ?b then _ else _) => destruct b
      end ].

Section CommandProperties.

Variable parseProject : gmap string string -> Project.
Variable parseText : TextDocument -> option Project.

(** *** The dirty-document gate *)

(** C5. When an open text document is dirty, the prompt flow shows its
    "please save" error message and returns: that message is the only
    event, so nothing was cancelled, resolved, picked or requested, and
    the world is the one it started from but for the logged message. *)
Theorem fragmentPrompt_blocked_when_dirty
    (frag : option Core.FragmentRef) (template : option PromptTemplate)
    (w : World) (d : TextDocument) :
  In d (textDocuments w) -> isDirty d = true ->
  let message :=
    EvShowErrorMessage
      "GPTool cancelled. Please save all files before running GPTools." in
  fragmentPrompt parseProject parseText frag template w
    = (Returned tt, emit message w) /\
  trace (fragmentPrompt parseProject parseText frag template) w = [message] /\
  aiRequest (exec (fragmentPrompt parseProject parseText frag template) w)
    = aiRequest w /\
  inflight (exec (fragmentPrompt parseProject parseText frag template) w)
    = inflight w.
Proof.
  intros Hin Hdirty message.
  assert (Hex : existsb isDirty (textDocuments w) = true).
  { apply existsb_exists; exists d; split; assumption. }
  assert (Hrun : fragmentPrompt parseProject parseText frag template w
                 = (Returned tt, emit message w)).
  { unfold fragmentPrompt, checkSaved, bind, gets; rewrite Hex; reflexivity. }
  split; [exact Hrun|].
  split; [apply trace_of_log; unfold exec; rewrite Hrun; reflexivity|].
  unfold exec; rewrite Hrun; split; reflexivity.
Qed.

(** *** Navigation *)

(** C10. When the identifier resolves to no fragment of the current
    project, [fragmentNavigate] returns and leaves the world as it was:
    no editor is opened, no selection moved, nothing logged. *)
Theorem fragmentNavigate_unresolved_noop
    (frag : option Core.FragmentRef) (w : World) :
  Core.resolveFragment (project w) frag = None ->
  fragmentNavigate frag w = (Returned tt, w).
Proof.
  intros H; unfold fragmentNavigate, bind, gets; rewrite H; reflexivity.
Qed.

(** *** Re-resolution before dispatch *)

(** C3, as amended. [fragmentExecute] cancels, then dispatches one
    request whose target is looked up by [fullId] in the current
    [fragmentByFullId]: the fragment found there when the id is present,
    and the handle it was given when the id is absent. *)
Theorem fragmentExecute_target
    (fragment : Fragment) (label templateId : string) (w : World) :
  exists target,
    trace (fragmentExecute (Some fragment) label templateId) w
      = [EvCancelAiRequest;
         EvRequestAI
           (mkAiRequestOptions
              (Some target)
              (Core.getTemplate (file_project_templates (file target))
                                templateId)
              label)] /\
    match fragmentByFullId (project w) !! fullId fragment with
    | Some current => target = current
    | None => target = fragment
    end.
Proof.
  exists (default fragment (fragmentByFullId (project w) !! fullId fragment)).
  split.
  - apply trace_of_log; unfold exec, fragmentExecute, bind, gets; simpl.
    rewrite <- app_assoc; reflexivity.
  - destruct (fragmentByFullId (project w) !! fullId fragment); reflexivity.
Qed.

(** *** Resolution yields roots *)

(** C9. Whatever the identifier and the world, a fragment returned by
    [resolveSpec] has no parent. *)
Theorem resolveSpec_returns_root
    (frag : option Core.FragmentRef) (w : World) (f : Fragment) :
  result (resolveSpec parseText frag) w = Returned (Some f) ->
  parent f = None.
Proof.
  unfold result, resolveSpec, bind, gets, parseDocument, showQuickPick,
    perform, ret, throw.
  simpl; intros H.
  repeat break_match_hyp;
    repeat match goal with
           | E : (_, _) = (_, _) |- _ => injection E as ? ?; subst
           end;
    simpl in H; try discriminate;
    injection H as H; eapply rootFragment_is_root; eassumption.
Qed.

(** *** Resolution without an identifier *)

(** C8. With no identifier and no record of a request, [resolveSpec]
    returns no fragment and changes nothing; the prompt flow then ends
    on an error message (the "please save" one when a document is dirty,
    the "could not find" one otherwise), dispatches no request and
    leaves the record of requests empty. *)
Theorem fragmentPrompt_absent_without_request
    (template : option PromptTemplate) (w : World) :
  aiRequest w = None ->
  let prompt := fragmentPrompt parseProject parseText None template in
  resolveSpec parseText None w = (Returned None, w) /\
  result prompt w = Returned tt /\
  (trace prompt w
     = [EvShowErrorMessage
          "GPTool cancelled. Please save all files before running GPTools."]
   \/
   trace prompt w
     = [EvParseWorkspace; EvCancelAiRequest;
        EvShowErrorMessage
          "GPTools - sorry, we could not find where to apply the tool. Please try to launch GPTools from the editor."]) /\
  aiRequest (exec prompt w) = None /\
  inflight (exec prompt w) <= inflight w.
Proof.
  intros Hnone prompt.
  split.
  { unfold resolveSpec, bind, gets; rewrite Hnone; reflexivity. }
  subst prompt.
  unfold result, trace, exec, fragmentPrompt, checkSaved, bind, gets.
  destruct (existsb isDirty (textDocuments w)) eqn:Hdirty; simpl.
  - rewrite drop_app_length.
    split; [reflexivity|]. split; [left; reflexivity|].
    split; [exact Hnone | lia].
  - unfold resolveSpec, bind, gets; simpl; rewrite Hnone; simpl.
    rewrite <- !app_assoc, drop_app_length.
    split; [reflexivity|]. split; [right; reflexivity|].
    split; [reflexivity | lia].
Qed.

(** *** Resolution of a referenced path *)

Lemma specPickItems_lookup (p : Project) (path : string) (i : nat)
    (f : TextFile) :
  List.filter (references_path path) (rootFiles p) !! i = Some f ->
  specPickItems p path !! i
    = Some (mkSpecPickItem (Text.basename (filename f)) (Some f)).
Proof.
  intros H; unfold specPickItems.
  apply lookup_app_l_Some.
  rewrite list_lookup_fmap, H; reflexivity.
Qed.

Lemma specPickItems_labels (p : Project) (path : string) :
  map spec_label (specPickItems p path)
    = map (fun f => Text.basename (filename f))
          (List.filter (references_path path) (rootFiles p))
      ++ ["Create new GPSpec file..."].
Proof.
  unfold specPickItems; rewrite map_app, map_map; reflexivity.
Qed.

(** A [vscode.Uri] is resolved as its [fsPath]. *)
Lemma resolveSpec_uri (path : string) (w : World) :
  resolveSpec parseText (Some (Core.RefUri path)) w
    = resolveSpec parseText (Some (Core.RefString path)) w.
Proof.
  unfold resolveSpec, bind, gets, normalizeRef.
  destruct (aiRequest w); reflexivity.
Qed.

(** C2, as amended. For a path that does not end in the suffix of
    specification documents: when no document's roots reference it, no
    picker is shown; when at least one does, also exactly one, the
    "Select GPSpec file" picker is the first thing that happens, listing
    those documents and "Create new GPSpec file..."; choosing a listed
    document resolves to the root of its first root fragment, and
    dismissing the picker resolves to nothing. *)
Theorem resolveSpec_picker_when_referenced (path : string) (w : World) :
  Text.is_gpspec_path path = false ->
  let gpspecs := List.filter (references_path path) (rootFiles (project w)) in
  let run := resolveSpec parseText (Some (Core.RefString path)) in
  (gpspecs = [] -> Forall (fun e => is_pick e = false) (trace run w)) /\
  (gpspecs <> [] ->
   exists rest,
     trace run w
       = EvShowQuickPick
           "Select GPSpec file"
           (map (fun f => Text.basename (filename f)) gpspecs
              ++ ["Create new GPSpec file..."])
         :: rest) /\
  (forall i f answers,
      pickAnswers w = Some i :: answers -> gpspecs !! i = Some f ->
      result run w = Returned (Core.rootFragment (head (roots f)))) /\
  (forall answers,
      gpspecs <> [] -> pickAnswers w = None :: answers ->
      result run w = Returned None).
Proof.
  intros Hpath gpspecs run; subst run.
  unfold result, trace, exec, resolveSpec, bind, gets.
  replace (normalizeRef (aiRequest w) (Some (Core.RefString path)))
    with (Some (Core.RefString path))
    by (unfold normalizeRef; destruct (aiRequest w); reflexivity).
  unfold referencedPath; rewrite Hpath.
  fold gpspecs.
  repeat split.
  - intros Hnil; rewrite Hnil; simpl.
    destruct (List.find _ (visibleTextEditors w)) as [document|]; simpl.
    + unfold parseDocument, bind, perform, ret, throw; simpl.
      destruct (parseText document) as [prj|]; simpl;
        [destruct (rootFiles prj); simpl|];
        rewrite drop_app_length; repeat constructor.
    + rewrite drop_all; constructor.
  - intros Hne.
    destruct gpspecs as [|f0 fs] eqn:Hg; [congruence|].
    change ((length (f0 :: fs) =? 0)%nat) with false; cbv iota.
    unfold showQuickPick.
    rewrite specPickItems_labels; fold gpspecs; rewrite Hg.
    set (shown := EvShowQuickPick _ _).
    assert (Hlog : forall A (r : Outcome A * World),
               (exists evs, log (snd r) = log w ++ shown :: evs) ->
               exists rest, drop (length (log w)) (log (snd r)) = shown :: rest).
    { intros A r [evs ->]; exists evs; apply drop_app_length. }
    apply Hlog.
    destruct (pickAnswers (emit shown w)) as [|answer rest]; simpl.
    + exists []; reflexivity.
    + destruct (answer ≫= _) as [pick|]; simpl; [|exists []; reflexivity].
      destruct (spec_file pick); simpl; [exists []; reflexivity|].
      destruct (List.find _ (visibleTextEditors w)) as [document|]; simpl;
        [|exists []; reflexivity].
      unfold parseDocument, bind, perform, ret, throw; simpl.
      destruct (parseText document) as [prj|]; simpl;
        [destruct (rootFiles prj); simpl|];
        rewrite <- app_assoc; eexists; reflexivity.
  - intros i f answers Hans Hi.
    assert (Hne : (length gpspecs =? 0)%nat = false).
    { destruct gpspecs; [discriminate | reflexivity]. }
    rewrite Hne; unfold showQuickPick; simpl.
    rewrite Hans; simpl.
    rewrite (specPickItems_lookup _ _ _ _ Hi); reflexivity.
  - intros answers Hne Hans.
    assert (Hlen : (length gpspecs =? 0)%nat = false).
    { destruct gpspecs; [congruence | reflexivity]. }
    rewrite Hlen; unfold showQuickPick; simpl.
    rewrite Hans; reflexivity.
Qed.

(** *** The note of a refinement *)

Lemma unwritten_refl (w : World) : unwritten w [] w.
Proof. split; [constructor | reflexivity]. Qed.

Lemma unwritten_trans (w1 w2 w3 : World) (evs1 evs2 : list Event) :
  unwritten w1 evs1 w2 -> unwritten w2 evs2 w3 ->
  unwritten w1 (evs1 ++ evs2) w3.
Proof.
  intros [H1 Hn1] [H2 Hn2].
  split; [apply Forall_app; split; assumption | congruence].
Qed.

Lemma unwritten_showQuickPick {A} (items : list A) (label_of : A -> string)
    (pick_title : string) :
  steps unwritten (showQuickPick items label_of pick_title).
Proof.
  intros w; eexists; unfold exec, showQuickPick; simpl.
  destruct (pickAnswers w); simpl; (split; [reflexivity|]);
    split; repeat constructor.
Qed.

Lemma unwritten_parseDocument (document : TextDocument) :
  steps unwritten (parseDocument parseText document).
Proof.
  intros w; eexists; split; [reflexivity|].
  split; repeat constructor.
Qed.

Lemma unwritten_resolveSpec (frag : option Core.FragmentRef) :
  steps unwritten (resolveSpec parseText frag).
Proof.
  pose proof unwritten_refl as Hr; pose proof unwritten_trans as Ht.
  unfold resolveSpec.
  repeat first [ steps_structure
               | apply unwritten_showQuickPick
               | apply unwritten_parseDocument ].
Qed.

Lemma truthy_nonempty (answer : option string) :
  truthy answer = true -> exists note, answer = Some note /\ note <> "".
Proof.
  destruct answer as [note|]; simpl; intros H; [|discriminate].
  exists note; split; [reflexivity|].
  intros ->; discriminate.
Qed.

Lemma no_write_in_drop (l l' evs : list Event) (path content : string) :
  l' = l ++ evs ->
  Forall (fun e => is_write e = false) evs ->
  ~ In (EvWriteFile path content) (drop (length l) l').
Proof.
  intros -> Hall; rewrite drop_app_length; intros Hin.
  rewrite Forall_forall in Hall.
  apply list_elem_of_In, Hall in Hin; discriminate.
Qed.

(** C7, as amended. Whenever the refinement flow writes the document,
    the answer read from the input box was a note that is not the empty
    string: a dismissed box and an empty note end the flow before the
    write. *)
Theorem fragmentRefine_writes_only_nonempty_note
    (w : World) (path content : string) :
  In (EvWriteFile path content)
     (trace (fragmentRefine parseProject parseText) w) ->
  exists note answers,
    inputAnswers w = Some note :: answers /\ note <> "".
Proof.
  unfold trace, exec, fragmentRefine.
  unfold bind at 1; unfold cancelAiRequest at 1; unfold perform at 1.
  set (w1 := set_request _ _ _).
  unfold bind at 1.
  destruct (unwritten_resolveSpec None w1) as (evs & Hlog & Hquiet & Hin).
  unfold exec in Hlog, Hin.
  assert (Hcancel : Forall (fun e => is_write e = false)
                           (EvCancelAiRequest :: evs))
    by (constructor; [reflexivity | exact Hquiet]).
  destruct (resolveSpec parseText None w1) as [[fragment|e] w2];
    simpl in Hlog, Hin; rewrite <- app_assoc in Hlog; cbv iota beta.
  2: { intros H; exfalso.
       exact (no_write_in_drop _ _ _ _ _ Hlog Hcancel H). }
  destruct fragment as [fragment|].
  2: { intros H; exfalso.
       exact (no_write_in_drop _ _ _ _ _ Hlog Hcancel H). }
  unfold bind at 1, gets at 1.
  destruct (aiRequest w2) as [request|].
  2: { intros H; exfalso.
       exact (no_write_in_drop _ _ _ _ _ Hlog Hcancel H). }
  unfold bind at 1, showInputBox at 1.
  assert (Hbox : forall b, Forall (fun e => is_write e = false)
                   ((EvCancelAiRequest :: evs)
                      ++ [EvShowInputBox "What do you want to add to your spec?" b])).
  { intros b; apply Forall_app; split; [exact Hcancel | repeat constructor]. }
  cbn [inputAnswers emit].
  rewrite Hin.
  destruct (inputAnswers w) as [|answer answers] eqn:Hanswers.
  { intros H; exfalso; simpl in H.
    refine (no_write_in_drop _ _ _ _ _ _ (Hbox _) H).
    rewrite Hlog, <- app_assoc; reflexivity. }
  destruct (truthy answer) eqn:Htruthy.
  - intros _.
    destruct (truthy_nonempty _ Htruthy) as (note & -> & Hnote).
    exists note, answers; split; [reflexivity | exact Hnote].
  - intros H; exfalso; simpl in H.
    refine (no_write_in_drop _ _ _ _ _ _ (Hbox _) H).
    rewrite Hlog, <- app_assoc; reflexivity.
Qed.

(** *** Cancellation before dispatch *)

Lemma running_after_app (n : nat) (evs1 evs2 : list Event) :
  running_after n (evs1 ++ evs2)
    = running_after (running_after n evs1) evs2.
Proof. apply fold_left_app. Qed.

Lemma at_most_one_bound (n : nat) (evs : list Event) :
  at_most_one n evs = true -> running_after n evs <= 1.
Proof.
  revert n; induction evs as [|e evs IH]; intros n; simpl; intros H;
    apply andb_true_iff in H as [Hn H].
  - apply Nat.leb_le; exact Hn.
  - apply IH; exact H.
Qed.

Lemma at_most_one_app (n : nat) (evs1 evs2 : list Event) :
  at_most_one n evs1 = true ->
  at_most_one (running_after n evs1) evs2 = true ->
  at_most_one n (evs1 ++ evs2) = true.
Proof.
  revert n; induction evs1 as [|e evs1 IH]; intros n; simpl; intros H1 H2.
  - exact H2.
  - apply andb_true_iff in H1 as [Hn H1].
    rewrite Hn; simpl; apply IH; assumption.
Qed.

Lemma cancel_first_weaken (b : bool) (evs : list Event) :
  cancel_first false evs = true -> cancel_first b evs = true.
Proof.
  destruct evs as [|[] evs]; simpl; try tauto; discriminate.
Qed.

Lemma cancel_first_app (b : bool) (evs1 evs2 : list Event) :
  cancel_first b evs1 = true -> cancel_first false evs2 = true ->
  cancel_first b (evs1 ++ evs2) = true.
Proof.
  revert b; induction evs1 as [|e evs1 IH]; intros b H1 H2.
  - apply cancel_first_weaken; exact H2.
  - destruct e; simpl in *; try (apply IH; assumption).
    apply andb_true_iff in H1 as [-> H1]; simpl; apply IH; assumption.
Qed.

Lemma orderly_refl (w : World) : orderly w [] w.
Proof.
  repeat split; intros n Hn; simpl.
  rewrite andb_true_r; apply Nat.leb_le; exact Hn.
Qed.

Lemma orderly_trans (w1 w2 w3 : World) (evs1 evs2 : list Event) :
  orderly w1 evs1 w2 -> orderly w2 evs2 w3 ->
  orderly w1 (evs1 ++ evs2) w3.
Proof.
  intros (Hi1 & Hc1 & Ha1) (Hi2 & Hc2 & Ha2).
  split; [|split].
  - rewrite running_after_app, <- Hi1; exact Hi2.
  - apply cancel_first_app; assumption.
  - intros n Hn; apply at_most_one_app; [apply Ha1; exact Hn|].
    apply Ha2, at_most_one_bound, Ha1; exact Hn.
Qed.

(** A command that logs one event that is neither a cancellation nor a
    request, and keeps the count of running calls. *)
Lemma orderly_event (w w' : World) (e : Event) :
  is_request e = false -> is_cancel e = false ->
  inflight w' = inflight w -> orderly w [e] w'.
Proof.
  intros Hr Hc Hi.
  split; [|split].
  - rewrite Hi; destruct e; simpl in *; congruence.
  - destruct e; simpl in *; congruence.
  - intros n Hn; apply Nat.leb_le in Hn.
    destruct e; simpl in *; try discriminate; rewrite Hn; reflexivity.
Qed.

Ltac orderly_prim :=
  let w := fresh "w" in
  intros w; eexists; split;
  [reflexivity | apply orderly_event; reflexivity].

Lemma orderly_emit (e : Event) :
  is_request e = false -> is_cancel e = false ->
  steps orderly (perform (emit e)).
Proof.
  intros Hr Hc w; eexists; split;
    [reflexivity | apply orderly_event; [assumption ..| reflexivity]].
Qed.

Lemma orderly_showQuickPick {A} (items : list A) (label_of : A -> string)
    (pick_title : string) :
  steps orderly (showQuickPick items label_of pick_title).
Proof.
  intros w; eexists; unfold exec, showQuickPick; simpl.
  destruct (pickAnswers w); simpl;
    (split; [reflexivity | apply orderly_event; reflexivity]).
Qed.

Lemma orderly_showInputBox (box_title prompt : string) :
  steps orderly (showInputBox box_title prompt).
Proof.
  intros w; eexists; unfold exec, showInputBox; simpl.
  destruct (inputAnswers w); simpl;
    (split; [reflexivity | apply orderly_event; reflexivity]).
Qed.

Lemma orderly_parseWorkspace : steps orderly (parseWorkspace parseProject).
Proof. orderly_prim. Qed.

Lemma orderly_saveAllTextDocuments : steps orderly saveAllTextDocuments.
Proof. orderly_prim. Qed.

Lemma orderly_writeFile (path content : string) :
  steps orderly (writeFile path content).
Proof. orderly_prim. Qed.

Lemma orderly_cancelAiRequest : steps orderly cancelAiRequest.
Proof.
  intros w; exists [EvCancelAiRequest]; split; [reflexivity|].
  split; [reflexivity|]. split; [reflexivity|].
  intros n Hn; apply Nat.leb_le in Hn; simpl; rewrite Hn; reflexivity.
Qed.

(** The one place where a request is dispatched: [requestAI] right
    after [cancelAiRequest]. *)
Lemma orderly_cancel_then_request (opts : AiRequestOptions) :
  steps orderly (cancelAiRequest ;;; requestAI opts).
Proof.
  intros w; exists [EvCancelAiRequest; EvRequestAI opts]; split.
  - unfold exec, bind; simpl; rewrite <- app_assoc; reflexivity.
  - split; [reflexivity|]. split; [reflexivity|].
    intros n Hn; apply Nat.leb_le in Hn; simpl; rewrite Hn; reflexivity.
Qed.

Ltac orderly_steps :=
  pose proof orderly_refl as Hrefl; pose proof orderly_trans as Htrans;
  repeat first
    [ apply orderly_cancel_then_request
    | apply orderly_cancelAiRequest
    | apply orderly_showQuickPick
    | apply orderly_showInputBox
    | apply orderly_parseWorkspace
    | apply orderly_saveAllTextDocuments
    | apply orderly_writeFile
    | apply orderly_emit; reflexivity
    | steps_structure ].

Lemma orderly_fragmentExecute (fragment : option Fragment)
    (label templateId : string) :
  steps orderly (fragmentExecute fragment label templateId).
Proof. unfold fragmentExecute; orderly_steps. Qed.

Lemma orderly_resolveSpec (frag : option Core.FragmentRef) :
  steps orderly (resolveSpec parseText frag).
Proof. unfold resolveSpec, parseDocument; orderly_steps. Qed.

Lemma orderly_pickTemplate (fragment : Fragment)
    (filter : option (PromptTemplate -> bool)) :
  steps orderly (pickTemplate fragment filter).
Proof.
  unfold pickTemplate, executeCommand, openExternal; orderly_steps.
Qed.

Lemma orderly_fragmentPrompt (frag : option Core.FragmentRef)
    (template : option PromptTemplate) :
  steps orderly (fragmentPrompt parseProject parseText frag template).
Proof.
  unfold fragmentPrompt, checkSaved, showErrorMessage.
  pose proof orderly_fragmentExecute; pose proof orderly_resolveSpec;
    pose proof orderly_pickTemplate.
  orderly_steps; auto.
Qed.

Lemma orderly_readFile (path : string) : steps orderly (readFile path).
Proof. unfold readFile; orderly_steps. Qed.

Lemma orderly_fragmentRefine :
  steps orderly (fragmentRefine parseProject parseText).
Proof.
  unfold fragmentRefine, showInformationMessage.
  pose proof orderly_fragmentPrompt; pose proof orderly_resolveSpec;
    pose proof orderly_readFile.
  orderly_steps; auto.
Qed.

Lemma orderly_in_order {A} (m : Cmd A) (w : World) :
  steps orderly m -> inflight w <= 1 -> cancels_before_requests w m.
Proof.
  intros Hm Hw; destruct (Hm w) as (evs & Hlog & Hi & Hc & Ha).
  unfold cancels_before_requests.
  rewrite (trace_of_log _ _ _ Hlog).
  split; [exact Hi|]. split; [exact Hc | apply Ha; exact Hw].
Qed.

(** C1. In a run of the prompt flow and in a run of the refinement
    flow, started with at most one generation call running: every
    request is dispatched directly after a cancellation has returned,
    the count of running calls is the one replayed from the events, and
    at most one call is running before the run and after each of its
    events. *)
Theorem flows_cancel_before_request
    (frag : option Core.FragmentRef) (template : option PromptTemplate)
    (w : World) :
  inflight w <= 1 ->
  cancels_before_requests
    w (fragmentPrompt parseProject parseText frag template) /\
  cancels_before_requests w (fragmentRefine parseProject parseText).
Proof.
  intros Hw; split; apply orderly_in_order; try exact Hw.
  - apply orderly_fragmentPrompt.
  - apply orderly_fragmentRefine.
Qed.

End CommandProperties.

(** ** The properties on the sample data *)

Lemma flows_cancel_before_request_sample :
  inflight (Sample.refining (Some "do X")) <= 1 /\
  cancels_before_requests
    (Sample.refining (Some "do X"))
    (fragmentPrompt Sample.parseProject Sample.parseText
                    (Some (Core.RefFragment Sample.rootA))
                    (Some Sample.gen)) /\
  cancels_before_requests
    (Sample.refining (Some "do X"))
    (fragmentRefine Sample.parseProject Sample.parseText).
Proof.
  split; [apply Nat.le_refl|].
  apply (flows_cancel_before_request
           Sample.parseProject Sample.parseText
           (Some (Core.RefFragment Sample.rootA)) (Some Sample.gen)
           (Sample.refining (Some "do X"))).
  apply Nat.le_refl.
Defined.

Lemma resolveSpec_picker_sample :
  Text.is_gpspec_path "util.ts" = false /\
  exists rest,
    trace (resolveSpec Sample.parseText (Some (Core.RefString "util.ts")))
          Sample.idle
      = EvShowQuickPick "Select GPSpec file"
                        ["a.gpspec.md"; "Create new GPSpec file..."]
        :: rest.
Proof.
  split; [reflexivity|].
  destruct (resolveSpec_picker_when_referenced
              Sample.parseText "util.ts" Sample.idle eq_refl)
    as (_ & Hshown & _).
  apply Hshown; discriminate.
Defined.

(** C2, as stated, fails: one document only references [util.ts], and
    the picker is shown all the same; dismissed, it resolves to nothing
    where the claim has the first root of that document. *)
Lemma resolveSpec_asks_with_one_document :
  Text.is_gpspec_path "util.ts" = false /\
  List.filter (references_path "util.ts") (rootFiles (project Sample.idle))
    = [Sample.docA] /\
  trace (resolveSpec Sample.parseText (Some (Core.RefString "util.ts")))
        Sample.idle
    = [EvShowQuickPick "Select GPSpec file"
                       ["a.gpspec.md"; "Create new GPSpec file..."]] /\
  result (resolveSpec Sample.parseText (Some (Core.RefString "util.ts")))
         Sample.idle
    = Returned None.
Proof. repeat split; reflexivity. Qed.

(** C3, as stated, fails: the id of [Sample.stale] is not in the
    mapping, and the request is dispatched on that very handle. *)
Lemma fragmentExecute_uses_stale_handle :
  fragmentByFullId (project Sample.idle) !! fullId Sample.stale = None /\
  trace (fragmentExecute (Some Sample.stale) "Generate code" "gen")
        Sample.idle
    = [EvCancelAiRequest;
       EvRequestAI (mkAiRequestOptions (Some Sample.stale) (Some Sample.gen)
                                       "Generate code")].
Proof. split; vm_compute; reflexivity. Qed.

Lemma fragmentPrompt_blocked_sample :
  In (Sample.openA true) (textDocuments Sample.dirty) /\
  isDirty (Sample.openA true) = true /\
  fragmentPrompt Sample.parseProject Sample.parseText
                 (Some (Core.RefFragment Sample.rootA)) (Some Sample.gen)
                 Sample.dirty
    = (Returned tt,
       emit (EvShowErrorMessage
               "GPTool cancelled. Please save all files before running GPTools.")
            Sample.dirty).
Proof.
  split; [left; reflexivity|]. split; [reflexivity|].
  exact (proj1 (fragmentPrompt_blocked_when_dirty
                  Sample.parseProject Sample.parseText
                  (Some (Core.RefFragment Sample.rootA)) (Some Sample.gen)
                  Sample.dirty (Sample.openA true)
                  (or_introl eq_refl) eq_refl)).
Defined.

Lemma fragmentRefine_note_sample :
  In (EvWriteFile "a.gpspec.md" (refinedContent Sample.fiveLines 3 "do X"))
     (trace (fragmentRefine Sample.parseProject Sample.parseText)
            (Sample.refining (Some "do X"))) /\
  exists note answers,
    inputAnswers (Sample.refining (Some "do X")) = Some note :: answers /\
    note <> "".
Proof.
  assert (H : In (EvWriteFile "a.gpspec.md"
                    (refinedContent Sample.fiveLines 3 "do X"))
                 (trace (fragmentRefine Sample.parseProject Sample.parseText)
                        (Sample.refining (Some "do X")))).
  { vm_compute; do 4 right; left; reflexivity. }
  split; [exact H|].
  exact (fragmentRefine_writes_only_nonempty_note
           Sample.parseProject Sample.parseText _ _ _ H).
Defined.

(** C7, as stated, fails: a note of three spaces is written into the
    document. *)
Lemma fragmentRefine_writes_whitespace_note :
  forallb (fun c => Ascii.eqb c " "%char) (list_ascii_of_string "   ") = true /\
  In (EvWriteFile "a.gpspec.md" (refinedContent Sample.fiveLines 3 "   "))
     (trace (fragmentRefine Sample.parseProject Sample.parseText)
            (Sample.refining (Some "   "))).
Proof.
  split; [reflexivity|].
  vm_compute; do 4 right; left; reflexivity.
Qed.

Lemma fragmentPrompt_absent_sample :
  aiRequest Sample.idle = None /\
  resolveSpec Sample.parseText None Sample.idle = (Returned None, Sample.idle).
Proof.
  split; [reflexivity|].
  exact (proj1 (fragmentPrompt_absent_without_request
                  Sample.parseProject Sample.parseText None Sample.idle
                  eq_refl)).
Defined.

Lemma resolveSpec_returns_root_sample :
  result (resolveSpec Sample.parseText
                      (Some (Core.RefFragment Sample.childA)))
         Sample.idle
    = Returned (Some Sample.rootA) /\
  parent Sample.rootA = None.
Proof.
  assert (H : result (resolveSpec Sample.parseText
                        (Some (Core.RefFragment Sample.childA)))
                     Sample.idle
              = Returned (Some Sample.rootA)) by (vm_compute; reflexivity).
  split; [exact H|].
  exact (resolveSpec_returns_root Sample.parseText _ _ _ H).
Defined.

Lemma fragmentNavigate_unresolved_sample :
  Core.resolveFragment (project Sample.idle)
                       (Some (Core.RefString "gone@a.gpspec.md")) = None /\
  fragmentNavigate (Some (Core.RefString "gone@a.gpspec.md")) Sample.idle
    = (Returned tt, Sample.idle).
Proof.
  assert (H : Core.resolveFragment
                (project Sample.idle)
                (Some (Core.RefString "gone@a.gpspec.md")) = None)
    by (vm_compute; reflexivity).
  split; [exact H|].
  exact (fragmentNavigate_unresolved_noop _ _ H).
Defined.

(** * Further properties *)

(** ** [prepackage.mjs] *)

Lemma prepackage_lookup (file : gmap string Prepackage.Json) (k : string) :
  Prepackage.prepackage file !! k
    = if decide (k = "enabledApiProposals") then None
      else if decide (k = "displayName")
           then Some (Prepackage.JString "GenAIScript")
           else if decide (k = "_enabledApiProposals")
                then file !! "enabledApiProposals"
                else file !! k.
Proof.
  unfold Prepackage.prepackage, Prepackage.writeJSON, Prepackage.rename,
    Prepackage.readJSON.
  rewrite lookup_omap.
  destruct (decide (k = "enabledApiProposals")) as [->|Hk1].
  { rewrite lookup_delete_eq; reflexivity. }
  rewrite lookup_delete_ne by congruence.
  destruct (decide (k = "displayName")) as [->|Hk2].
  { rewrite lookup_insert_eq; reflexivity. }
  rewrite lookup_insert_ne by congruence.
  destruct (decide (k = "_enabledApiProposals")) as [->|Hk3].
  { rewrite lookup_insert_eq, lookup_fmap.
    destruct (file !! "enabledApiProposals"); reflexivity. }
  rewrite lookup_insert_ne by congruence.
  rewrite lookup_fmap; destruct (file !! k); reflexivity.
Qed.

(** X1. The package written by [prepackage.mjs] has no
    [enabledApiProposals]; its [displayName] is ["GenAIScript"]; its
    [_enabledApiProposals] is what [enabledApiProposals] was, and is
    absent when that was absent, whatever [_enabledApiProposals] held
    before; every other member is kept. *)
Theorem prepackage_members (file : gmap string Prepackage.Json) :
  let out := Prepackage.prepackage file in
  out !! "enabledApiProposals" = None /\
  out !! "displayName" = Some (Prepackage.JString "GenAIScript") /\
  out !! "_enabledApiProposals" = file !! "enabledApiProposals" /\
  forall k,
    k <> "enabledApiProposals" -> k <> "displayName" ->
    k <> "_enabledApiProposals" ->
    out !! k = file !! k.
Proof.
  cbv zeta; repeat split; try (rewrite prepackage_lookup; reflexivity).
  intros k H1 H2 H3; rewrite prepackage_lookup.
  repeat (destruct (decide _); [congruence|]); reflexivity.
Qed.

(** X2. Running [prepackage.mjs] on its own output loses the
    proposals: after a second run [_enabledApiProposals] is absent,
    whatever the package was; a second run changes nothing else. *)
Theorem prepackage_twice_drops_proposals (file : gmap string Prepackage.Json) :
  let once := Prepackage.prepackage file in
  let twice := Prepackage.prepackage once in
  twice !! "_enabledApiProposals" = None /\
  forall k, k <> "_enabledApiProposals" -> twice !! k = once !! k.
Proof.
  cbv zeta; split.
  - rewrite !prepackage_lookup; reflexivity.
  - intros k Hk; rewrite !prepackage_lookup.
    repeat (destruct (decide _); try congruence).
Qed.

(** ** Splitting and joining lines *)

Lemma split_lf_append (a b : string) :
  Text.split_lf (a +:+ String Text.LF b) = Text.split_lf a ++ Text.split_lf b.
Proof.
  induction a as [|c a IH]; [reflexivity|].
  change (Text.split_lf (String c (a +:+ String Text.LF b))
          = Text.split_lf (String c a) ++ Text.split_lf b).
  cbn [Text.split_lf]; rewrite IH.
  destruct (Text.is_LF c); [reflexivity|].
  pose proof (split_lf_nonempty a) as Hne.
  destruct (Text.split_lf a) as [|h t]; [congruence | reflexivity].
Qed.

Lemma split_join_lines (lines : list string) :
  lines <> [] ->
  Text.split_lf (Text.join_lf lines) = flat_map Text.split_lf lines.
Proof.
  induction lines as [|l rest IH]; intros Hne; [congruence|].
  destruct rest as [|l2 rest].
  - simpl; rewrite app_nil_r; reflexivity.
  - change (Text.join_lf (l :: l2 :: rest))
      with (l +:+ String Text.LF (Text.join_lf (l2 :: rest))).
    rewrite split_lf_append, IH by discriminate; reflexivity.
Qed.

Lemma flat_map_split_lines (lines : list string) :
  Forall (fun l => Text.has_LF l = false) lines ->
  flat_map Text.split_lf lines = lines.
Proof.
  induction 1 as [|l rest Hl _ IH]; [reflexivity|].
  simpl; rewrite (split_lf_single l Hl), IH; reflexivity.
Qed.

Lemma string_append_assoc (a b c : string) :
  (a +:+ b) +:+ c = a +:+ (b +:+ c).
Proof.
  induction a as [|x a IH]; [reflexivity|].
  change (String x ((a +:+ b) +:+ c) = String x (a +:+ (b +:+ c))).
  rewrite IH; reflexivity.
Qed.

Lemma join_lf_cons (l : string) (rest : list string) :
  rest <> [] ->
  Text.join_lf (l :: rest) = l +:+ String Text.LF (Text.join_lf rest).
Proof. destruct rest; [congruence | reflexivity]. Qed.

Lemma join_lf_snoc (lines : list string) (l : string) :
  lines <> [] ->
  Text.join_lf (lines ++ [l]) = Text.join_lf lines +:+ String Text.LF l.
Proof.
  induction lines as [|h t IH]; intros Hne; [congruence|].
  destruct t as [|h2 t]; [reflexivity|].
  change ((h :: h2 :: t) ++ [l]) with (h :: ((h2 :: t) ++ [l])).
  rewrite join_lf_cons by (simpl; discriminate).
  rewrite IH by discriminate.
  rewrite (join_lf_cons h (h2 :: t)) by discriminate.
  rewrite string_append_assoc; reflexivity.
Qed.

Lemma join_split_lf_text (s : string) : Text.join_lf (Text.split_lf s) = s.
Proof.
  induction s as [|c s IH]; [reflexivity|].
  cbn [Text.split_lf].
  pose proof (split_lf_nonempty s) as Hne.
  destruct (Text.is_LF c) eqn:Hc.
  - rewrite join_lf_cons by exact Hne.
    rewrite IH; simpl.
    apply Ascii.eqb_eq in Hc; rewrite Hc; reflexivity.
  - destruct (Text.split_lf s) as [|h t]; [congruence|].
    destruct t as [|h2 t]; simpl in *; rewrite <- IH; reflexivity.
Qed.

(** X3. Joining the lines of a text gives the text back, and the lines
    of a text are never none: splitting on line feeds and joining with
    line feeds loses nothing, also for the empty text and for a text
    that ends in a line feed. *)
Theorem join_split_lf (s : string) :
  Text.join_lf (Text.split_lf s) = s /\ Text.split_lf s <> [].
Proof. split; [apply join_split_lf_text | apply split_lf_nonempty]. Qed.

Lemma refinedContent_split (content : string) (endLine : nat) (note : string) :
  Text.split_lf (refinedContent content endLine note)
    = take endLine (Text.split_lf content)
      ++ Text.split_lf ("-   " +:+ note)
      ++ drop endLine (Text.split_lf content).
Proof.
  unfold refinedContent, Text.splice_insert.
  rewrite split_join_lines by (destruct (take endLine _); discriminate).
  pose proof (split_lf_without_LF content) as Hall.
  rewrite flat_map_app; cbn [flat_map].
  rewrite !flat_map_split_lines
    by (apply Forall_take || apply Forall_drop; exact Hall).
  reflexivity.
Qed.

Lemma split_lf_char_length (c : ascii) (s : string) :
  Text.is_LF c = false ->
  length (Text.split_lf (String c s)) = length (Text.split_lf s).
Proof.
  intros Hc; cbn [Text.split_lf]; rewrite Hc.
  pose proof (split_lf_nonempty s) as Hne.
  destruct (Text.split_lf s); [congruence | reflexivity].
Qed.

Lemma split_lf_item_length (note : string) :
  length (Text.split_lf ("-   " +:+ note)) = length (Text.split_lf note).
Proof.
  change ("-   " +:+ note)
    with (String "-" (String " " (String " " (String " " note)))).
  rewrite !split_lf_char_length by reflexivity; reflexivity.
Qed.

(** X4. Whatever the note, the text written back for a refinement has
    the lines of the document, in order, with the lines of the list
    item put in at [endLine]: a note with line feeds adds one line for
    each of its own lines, so the document grows by the number of lines
    of the note. *)
Theorem refinedContent_line_count
    (content : string) (endLine : nat) (note : string) :
  let lines := Text.split_lf content in
  let lines' := Text.split_lf (refinedContent content endLine note) in
  lines' = take endLine lines ++ Text.split_lf ("-   " +:+ note)
             ++ drop endLine lines /\
  length lines' = length lines + length (Text.split_lf note).
Proof.
  cbv zeta; rewrite refinedContent_split; split; [reflexivity|].
  rewrite !length_app, split_lf_item_length, length_take, length_drop; lia.
Qed.

(** X5. When the end line of the fragment is not a line of the document
    (the index is the number of lines or more), [splice] clamps it: the
    list item is appended after the last line, and the text written is
    the document, a line feed and the item. *)
Theorem refinedContent_beyond_end
    (content : string) (endLine : nat) (note : string) :
  length (Text.split_lf content) <= endLine ->
  refinedContent content endLine note
    = content +:+ String Text.LF ("-   " +:+ note).
Proof.
  intros Hle; unfold refinedContent, Text.splice_insert.
  rewrite take_ge, drop_ge by exact Hle.
  rewrite join_lf_snoc by apply split_lf_nonempty.
  rewrite join_split_lf_text; reflexivity.
Qed.

(** X6. A refinement can be taken back: for a note without a line feed
    and an end line within the document, deleting the line at [endLine]
    from the text written gives the document as it was. *)
Theorem refinedContent_undo
    (content : string) (endLine : nat) (note : string) :
  Text.has_LF note = false ->
  endLine <= length (Text.split_lf content) ->
  Text.join_lf
    (delete endLine (Text.split_lf (refinedContent content endLine note)))
    = content.
Proof.
  intros Hnote Hle.
  rewrite refinedContent_split.
  rewrite (split_lf_single ("-   " +:+ note))
    by (rewrite has_LF_append, Hnote; reflexivity).
  cbn [app].
  replace endLine with (length (take endLine (Text.split_lf content))) at 1
    by (rewrite length_take; lia).
  rewrite delete_middle, take_drop.
  apply join_split_lf_text.
Qed.

(** ** The suffix of specification documents *)

Lemma ends_with_iff (suffix s : string) :
  Text.ends_with suffix s = true <-> exists prefix, s = prefix +:+ suffix.
Proof.
  induction s as [|c s IH]; cbn [Text.ends_with].
  - rewrite orb_false_r, String.eqb_eq; split.
    + intros <-; exists ""; reflexivity.
    + intros [[|x p] H]; [exact H | discriminate].
  - rewrite orb_true_iff, String.eqb_eq, IH; split.
    + intros [<-|[p ->]]; [exists ""; reflexivity|].
      exists (String c p); reflexivity.
    + intros [[|x p] H]; [left; exact H|].
      right; exists p.
      change (String c s = String x (p +:+ suffix)) in H; congruence.
Qed.

Lemma lower_string_append (a b : string) :
  Text.lower_string (a +:+ b) = Text.lower_string a +:+ Text.lower_string b.
Proof.
  induction a as [|c a IH]; [reflexivity|].
  change (String (Text.lower c) (Text.lower_string (a +:+ b))
          = String (Text.lower c)
                   (Text.lower_string a +:+ Text.lower_string b)).
  rewrite IH; reflexivity.
Qed.

Lemma lower_string_split (s p q : string) :
  Text.lower_string s = p +:+ q ->
  exists a b,
    s = a +:+ b /\ Text.lower_string a = p /\ Text.lower_string b = q.
Proof.
  revert s; induction p as [|x p IH]; intros s H.
  - exists "", s; repeat split; exact H.
  - destruct s as [|c s]; [discriminate|].
    change (String (Text.lower c) (Text.lower_string s)
            = String x (p +:+ q)) in H.
    injection H as Hc Hs.
    destruct (IH s Hs) as (a & b & -> & Ha & Hb).
    exists (String c a), b; repeat split; [|exact Hb].
    simpl; rewrite Hc, Ha; reflexivity.
Qed.

(** X7. A path counts as a specification document exactly when it ends
    in [.gpspec.md] written in any mix of upper and lower case: the
    test holds if and only if the path is some text followed by an
    ending whose lower-case form is [.gpspec.md]. *)
Theorem is_gpspec_path_iff (s : string) :
  Text.is_gpspec_path s = true <->
  exists stem ending,
    s = stem +:+ ending /\ Text.lower_string ending = ".gpspec.md".
Proof.
  unfold Text.is_gpspec_path; rewrite ends_with_iff; split.
  - intros [p H].
    destruct (lower_string_split s p _ H) as (a & b & -> & _ & Hb).
    exists a, b; split; [reflexivity | exact Hb].
  - intros (a & b & -> & Hb).
    exists (Text.lower_string a).
    rewrite lower_string_append, Hb; reflexivity.
Qed.

(** ** The items of the template picker *)

Lemma group_items_no_action_filter
    (cats : list (string * list PromptTemplate)) :
  List.filter has_action
    (flat_map (fun cat => separatorItem (fst cat)
                            :: map templateItem (snd cat)) cats) = [].
Proof.
  induction cats as [|cat rest IH]; [reflexivity|].
  cbn [flat_map]; rewrite List.filter_app, IH, app_nil_r.
  cbn [List.filter has_action action separatorItem].
  induction (snd cat) as [|t ts IHt]; [reflexivity | exact IHt].
Qed.

Lemma group_items_one_role
    (cats : list (string * list PromptTemplate)) (i : TemplateQuickPickItem) :
  In i (flat_map (fun cat => separatorItem (fst cat)
                               :: map templateItem (snd cat)) cats) ->
  action i = None /\
  (template i = None \/
   exists t, i = templateItem t /\ In t (flat_map snd cats)).
Proof.
  induction cats as [|cat rest IH]; cbn [flat_map]; [intros []|].
  rewrite in_app_iff; intros [[<-|Hi]|Hi].
  - split; [reflexivity | left; reflexivity].
  - apply in_map_iff in Hi as (t & <- & Ht).
    split; [reflexivity|].
    right; exists t; split; [reflexivity|].
    apply in_or_app; left; exact Ht.
  - destruct (IH Hi) as [Ha [Ht|(t & -> & Ht)]].
    + split; [exact Ha | left; exact Ht].
    + split; [reflexivity|].
      right; exists t; split; [reflexivity|].
      apply in_or_app; right; exact Ht.
Qed.

Lemma picker_item_template
    (templates : list PromptTemplate) (i : TemplateQuickPickItem)
    (t : PromptTemplate) :
  In i (templatesToQuickPickItems templates) ->
  template i = Some t ->
  In t templates /\ action i = None.
Proof.
  unfold templatesToQuickPickItems; rewrite in_app_iff.
  intros [Hi|Hi] Ht.
  - destruct (group_items_one_role _ _ Hi) as [Ha [Hn|(t' & -> & Hin)]].
    + congruence.
    + injection Ht as <-.
      split; [|reflexivity].
      apply (groupBy_members Core.templateGroup); exact Hin.
  - destruct Hi as [<-|[<-|[<-|[]]]]; discriminate.
Qed.

(** X8. Among the items shown for any list of templates, the items that
    carry an action are exactly the two escape actions, "create" then
    "discussions", and no item carries both a template and an action. *)
Theorem templatesToQuickPickItems_actions (templates : list PromptTemplate) :
  List.filter has_action (templatesToQuickPickItems templates)
    = [createItem; discussionsItem] /\
  forall i,
    In i (templatesToQuickPickItems templates) ->
    template i = None \/ action i = None.
Proof.
  split.
  - unfold templatesToQuickPickItems.
    rewrite List.filter_app, group_items_no_action_filter; reflexivity.
  - intros i Hi.
    destruct (template i) as [t|] eqn:Ht; [right | left; reflexivity].
    exact (proj2 (picker_item_template _ _ _ Hi Ht)).
Qed.

Lemma groupBy_add_perm {A} (k : string) (v : A) cats :
  flat_map snd (Core.groupBy_add k v cats) ≡ₚ v :: flat_map snd cats.
Proof.
  induction cats as [|[k' vs] rest IH]; [reflexivity|].
  cbn [Core.groupBy_add].
  destruct (String.eqb k' k); cbn [flat_map snd].
  - rewrite <- app_assoc; cbn [app].
    symmetry; apply Permutation_middle.
  - rewrite IH; symmetry; apply Permutation_middle.
Qed.

Lemma groupBy_fold_perm {A} (key : A -> string) (l : list A) cats :
  flat_map snd
    (fold_left (fun cats y => Core.groupBy_add (key y) y cats) l cats)
  ≡ₚ flat_map snd cats ++ l.
Proof.
  revert cats; induction l as [|y l IH]; intros cats; cbn [fold_left].
  - rewrite app_nil_r; reflexivity.
  - rewrite IH, groupBy_add_perm.
    rewrite <- Permutation_middle; reflexivity.
Qed.

Lemma group_items_templates (cats : list (string * list PromptTemplate)) :
  item_templates
    (flat_map (fun cat => separatorItem (fst cat)
                            :: map templateItem (snd cat)) cats)
  = flat_map snd cats.
Proof.
  unfold item_templates.
  induction cats as [|cat rest IH]; [reflexivity|].
  cbn [flat_map]; rewrite omap_app, IH; f_equal.
  cbn [omap list_omap separatorItem template].
  induction (snd cat) as [|t ts IHt]; [reflexivity|].
  cbn; f_equal; exact IHt.
Qed.

(** X9. The templates carried by the items shown are the templates
    given, each as often as it was given: grouping loses no template
    and shows none twice. *)
Theorem templatesToQuickPickItems_templates (templates : list PromptTemplate) :
  item_templates (templatesToQuickPickItems templates) ≡ₚ templates.
Proof.
  unfold templatesToQuickPickItems, item_templates.
  rewrite omap_app.
  change (omap template _ ++ omap template _)
    with (item_templates
            (flat_map (fun cat => separatorItem (fst cat)
                                    :: map templateItem (snd cat))
                      (Core.groupBy templates Core.templateGroup)) ++ []).
  rewrite app_nil_r, group_items_templates.
  unfold Core.groupBy; rewrite groupBy_fold_perm; reflexivity.
Qed.

(** ** [pickTemplate] *)

(** X10. A template returned by [pickTemplate] is one of the applicable
    templates of the fragment that passes the filter (every template
    when no filter is given): the user cannot be handed a template that
    does not apply. *)
Theorem pickTemplate_returns_applicable
    (fragment : Fragment) (filter : option (PromptTemplate -> bool))
    (w : World) (t : PromptTemplate) :
  result (pickTemplate fragment filter) w = Returned (Some t) ->
  In t (applicableTemplates fragment) /\
  default (fun _ => true) filter t = true.
Proof.
  unfold result, pickTemplate, bind, showQuickPick.
  set (items := templatesToQuickPickItems _).
  cbn [pickAnswers emit].
  assert (Hitem : forall picked : option TemplateQuickPickItem,
             (forall i, picked = Some i -> In i items) ->
             forall w',
               fst (match picked ≫= action with
                    | Some ActionCreate =>
                        (executeCommand "coarch.prompt.create" ;;; ret None)
                    | Some ActionDiscussions =>
                        (openExternal
                           "https://github.com/microsoft/gptools/discussions" ;;;
                         ret None)
                    | None => ret (picked ≫= template)
                    end w') = Returned (Some t) ->
             In t (applicableTemplates fragment) /\
             default (fun _ => true) filter t = true).
  { intros picked Hin w'.
    destruct picked as [i|]; cbn [mbind option_bind];
      [|intros H; discriminate].
    destruct (action i) as [[]|]; cbn; try discriminate.
    intros H; injection H as Ht.
    destruct (picker_item_template _ _ _ (Hin i eq_refl) Ht) as [Hf _].
    apply List.filter_In in Hf; exact Hf. }
  destruct (pickAnswers w) as [|answer rest]; cbn [fst snd].
  - intros H; apply (Hitem None) in H; [exact H | discriminate].
  - intros H; apply (Hitem (answer ≫= (fun i => items !! i))) in H;
      [exact H|].
    intros i Hi; destruct answer as [n|]; cbn in Hi; [|discriminate].
    apply list_elem_of_In; eapply list_elem_of_lookup_2; exact Hi.
Qed.


(** ** More on the commands *)

Section FlowProperties.

Variable parseProject : gmap string string -> Project.
Variable parseText : TextDocument -> option Project.

(** *** [resolveSpec] *)

(** X12. The "next logic": without an identifier, and with a recorded
    request that has a fragment, [resolveSpec] does exactly what it does
    for the [fullId] of that fragment given as a string; the recorded
    handle itself is not reused. *)
Theorem resolveSpec_next
    (w : World) (r : AiRequest) (previous : Fragment) :
  aiRequest w = Some r ->
  opt_fragment (options r) = Some previous ->
  resolveSpec parseText None w
    = resolveSpec parseText (Some (Core.RefString (fullId previous))) w.
Proof.
  intros Hr Hp; unfold resolveSpec, bind, gets, normalizeRef.
  rewrite Hr, Hp; reflexivity.
Qed.

Lemma normalizeRef_given (request : option AiRequest) (r : Core.FragmentRef) :
  normalizeRef request (Some r)
    = match r with
      | Core.RefUri path => Some (Core.RefString path)
      | _ => Some r
      end.
Proof. destruct request, r; reflexivity. Qed.

(** X13. For the path of a specification document, given as a string or
    as a [vscode.Uri], [resolveSpec] asks nothing and changes nothing:
    it returns the root of what [project.resolveFragment] finds for the
    path, and the world is as before. *)
Theorem resolveSpec_spec_path_silent (path : string) (w : World) :
  Text.is_gpspec_path path = true ->
  let found :=
    Core.rootFragment
      (Core.resolveFragment (project w) (Some (Core.RefString path))) in
  resolveSpec parseText (Some (Core.RefString path)) w = (Returned found, w) /\
  resolveSpec parseText (Some (Core.RefUri path)) w = (Returned found, w).
Proof.
  intros Hpath; cbv zeta.
  unfold resolveSpec, bind, gets.
  rewrite !normalizeRef_given; unfold referencedPath; rewrite Hpath.
  split; reflexivity.
Qed.

(** X14. A path that is not a specification document, that no document
    references and that is not open in a visible editor resolves to
    nothing, without a picker, without a parse and without any change
    of the world. *)
Theorem resolveSpec_unreferenced_closed (path : string) (w : World) :
  Text.is_gpspec_path path = false ->
  List.filter (references_path path) (rootFiles (project w)) = [] ->
  List.find (fun d => String.eqb (fsPath d) path) (visibleTextEditors w)
    = None ->
  resolveSpec parseText (Some (Core.RefString path)) w = (Returned None, w).
Proof.
  intros Hpath Hrefs Hclosed.
  unfold resolveSpec, bind, gets.
  rewrite normalizeRef_given; unfold referencedPath; rewrite Hpath, Hrefs.
  cbn; rewrite Hclosed; reflexivity.
Qed.

(** X15. A path that is not a specification document, that no document
    references and that is open in a visible editor is parsed fresh,
    without a picker: the result is the root of the first fragment of
    the first file of that parse, nothing when the parse yields no
    project or the file has no fragment, and a thrown [TypeError] when
    the parse yields a project without files. *)
Theorem resolveSpec_unreferenced_open
    (path : string) (w : World) (document : TextDocument) :
  Text.is_gpspec_path path = false ->
  List.filter (references_path path) (rootFiles (project w)) = [] ->
  List.find (fun d => String.eqb (fsPath d) path) (visibleTextEditors w)
    = Some document ->
  let run := resolveSpec parseText (Some (Core.RefString path)) in
  trace run w = [EvParseDocument (fsPath document)] /\
  result run w
    = match parseText document with
      | None => Returned None
      | Some prj =>
          match rootFiles prj with
          | [] => Thrown "TypeError"
          | f0 :: _ => Returned (Core.rootFragment (head (fragments f0)))
          end
      end.
Proof.
  intros Hpath Hrefs Hopen; cbv zeta.
  unfold result, trace, exec, resolveSpec, bind, gets.
  rewrite normalizeRef_given; unfold referencedPath; rewrite Hpath, Hrefs.
  cbn; rewrite Hopen.
  unfold parseDocument, bind, perform, ret, throw; cbn.
  destruct (parseText document) as [prj|]; cbn;
    [destruct (rootFiles prj); cbn|];
    rewrite drop_app_length; split; reflexivity.
Qed.

(** *** [fragmentRefine] without a request *)

(** X16. Without a recorded request the refinement flow cancels and
    returns: no input box is shown, nothing is saved or written, no
    request is dispatched, and the read of [state.aiRequest.options]
    is not reached, so nothing is thrown. *)
Theorem fragmentRefine_without_request (w : World) :
  aiRequest w = None ->
  result (fragmentRefine parseProject parseText) w = Returned tt /\
  trace (fragmentRefine parseProject parseText) w = [EvCancelAiRequest] /\
  files (exec (fragmentRefine parseProject parseText) w) = files w /\
  aiRequest (exec (fragmentRefine parseProject parseText) w) = None.
Proof.
  intros Hnone.
  unfold result, trace, exec, fragmentRefine, bind, cancelAiRequest, perform.
  unfold resolveSpec, bind, gets; cbn; rewrite Hnone; cbn.
  rewrite drop_app_length; repeat split; reflexivity.
Qed.

(** *** Relations kept by the flows *)

Create HintDb commands.

#[local] Hint Unfold
  showErrorMessage showInformationMessage executeCommand openExternal
  readFile writeFile showTextDocument setSelection revealRange
  parseWorkspace parseDocument cancelAiRequest requestAI
  saveAllTextDocuments checkSaved pickTemplate fragmentExecute
  resolveSpec fragmentPrompt fragmentRefine fragmentNavigate : commands.

(** A primitive: one call of the editor or of the state. *)
Ltac steps_primitive :=
  let w := fresh "w" in
  intros w; unfold exec, showQuickPick, showInputBox, perform; cbn;
  repeat match goal with
         | |- context [match pickAnswers ?x with _ => _ end] =>
             destruct (pickAnswers x); cbn
         | |- context [match inputAnswers ?x with _ => _ end] =>
             destruct (inputAnswers x); cbn
         end;
  eexists; (split; [reflexivity|]);
  unfold resolving, undispatched, unsaved; cbn;
  repeat split; repeat constructor.

Ltac steps_through :=
  autounfold with commands;
  repeat first [ steps_structure | solve [steps_primitive] ].

Lemma resolving_refl (w : World) : resolving w [] w.
Proof. repeat split; constructor. Qed.

Lemma resolving_trans (w1 w2 w3 : World) (evs1 evs2 : list Event) :
  resolving w1 evs1 w2 -> resolving w2 evs2 w3 ->
  resolving w1 (evs1 ++ evs2) w3.
Proof.
  intros (Ha & ? & ? & ? & ? & ? & ? & ?) (Hb & ? & ? & ? & ? & ? & ? & ?).
  repeat split; [apply Forall_app; split; assumption | congruence ..].
Qed.

Lemma resolveSpec_resolving (frag : option Core.FragmentRef) :
  steps resolving (resolveSpec parseText frag).
Proof.
  pose proof resolving_refl; pose proof resolving_trans.
  steps_through.
Qed.

(** X17. Whatever the identifier, [resolveSpec] only shows the "Select
    GPSpec file" picker and parses an open document: every event of its
    run is one of these, and the project, the recorded request, the
    running calls, the open documents, the files on disk and the
    answers for input boxes are as before. *)
Theorem resolveSpec_footprint (frag : option Core.FragmentRef) (w : World) :
  let w' := exec (resolveSpec parseText frag) w in
  Forall (fun e => is_pick e || is_parse_document e = true)
         (trace (resolveSpec parseText frag) w) /\
  project w' = project w /\
  aiRequest w' = aiRequest w /\
  inflight w' = inflight w /\
  textDocuments w' = textDocuments w /\
  visibleTextEditors w' = visibleTextEditors w /\
  files w' = files w /\
  inputAnswers w' = inputAnswers w.
Proof.
  destruct (resolveSpec_resolving frag w) as (evs & Hlog & Hr).
  cbv zeta; rewrite (trace_of_log _ _ _ Hlog); exact Hr.
Qed.

Lemma unsaved_refl (w : World) : unsaved w [] w.
Proof. split; [constructor | reflexivity]. Qed.

Lemma unsaved_trans (w1 w2 w3 : World) (evs1 evs2 : list Event) :
  unsaved w1 evs1 w2 -> unsaved w2 evs2 w3 -> unsaved w1 (evs1 ++ evs2) w3.
Proof.
  intros [Ha ?] [Hb ?].
  split; [apply Forall_app; split; assumption | congruence].
Qed.

Lemma fragmentPrompt_unsaved (frag : option Core.FragmentRef)
    (template : option PromptTemplate) :
  steps unsaved (fragmentPrompt parseProject parseText frag template).
Proof.
  pose proof unsaved_refl; pose proof unsaved_trans.
  steps_through.
Qed.

(** X18. The prompt flow never writes a file: no event of its run is a
    write and the files on disk are as before, whether it ends on an
    error, on a dismissed picker or on a dispatched request. *)
Theorem fragmentPrompt_writes_nothing
    (frag : option Core.FragmentRef) (template : option PromptTemplate)
    (w : World) :
  Forall (fun e => is_write e = false)
         (trace (fragmentPrompt parseProject parseText frag template) w) /\
  files (exec (fragmentPrompt parseProject parseText frag template) w)
    = files w.
Proof.
  destruct (fragmentPrompt_unsaved frag template w) as (evs & Hlog & Hr).
  rewrite (trace_of_log _ _ _ Hlog); exact Hr.
Qed.

(** *** Dispatch comes last *)

Lemma undispatched_refl (w : World) : undispatched w [] w.
Proof. split; [constructor | reflexivity]. Qed.

Lemma undispatched_trans (w1 w2 w3 : World) (evs1 evs2 : list Event) :
  undispatched w1 evs1 w2 -> undispatched w2 evs2 w3 ->
  undispatched w1 (evs1 ++ evs2) w3.
Proof.
  intros [Ha ?] [Hb ?].
  split; [apply Forall_app; split; assumption | congruence].
Qed.

Ltac undispatched_steps :=
  solve [ pose proof undispatched_refl; pose proof undispatched_trans;
          steps_through ].

Lemma last_of_undispatched {A} (m : Cmd A) :
  steps undispatched m -> steps dispatched_last m.
Proof.
  intros Hm w; destruct (Hm w) as (evs & Hlog & Hall & Hreq).
  exists evs; split; [exact Hlog|].
  exists evs; split; [exact Hall | left; split; [reflexivity | exact Hreq]].
Qed.

Lemma last_bind {A B} (m : Cmd A) (k : A -> Cmd B) :
  steps undispatched m -> (forall a, steps dispatched_last (k a)) ->
  steps dispatched_last (bind m k).
Proof.
  intros Hm Hk w; destruct (Hm w) as (evs1 & Hlog1 & Hall1 & Hreq1).
  unfold exec, bind in *.
  destruct (m w) as [[a|e] w1]; cbn in *.
  - destruct (Hk a w1) as (evs2 & Hlog2 & before & Hall2 & Hcase).
    unfold exec in Hlog2, Hcase.
    exists (evs1 ++ evs2); split;
      [rewrite Hlog2, Hlog1, app_assoc; reflexivity|].
    exists (evs1 ++ before); split; [apply Forall_app; split; assumption|].
    destruct Hcase as [[-> Hr]|(opts & -> & Hr)].
    + left; split; [reflexivity | congruence].
    + right; exists opts; split; [rewrite app_assoc; reflexivity | exact Hr].
  - exists evs1; split; [exact Hlog1|].
    exists evs1; split; [exact Hall1 | left; split; [reflexivity|exact Hreq1]].
Qed.

Lemma last_requestAI (opts : AiRequestOptions) :
  steps dispatched_last (requestAI opts).
Proof.
  intros w; exists [EvRequestAI opts]; split; [reflexivity|].
  exists []; split; [constructor|].
  right; exists opts; split; reflexivity.
Qed.

Ltac last_steps :=
  autounfold with commands;
  repeat first
    [ apply last_requestAI
    | apply last_bind; [undispatched_steps | intros]
    | match goal with
      | |- steps _ (match ?x with _ => _ end) => destruct x
      | |- steps _ (if ?b then _ else _) => destruct b
      end
    | apply last_of_undispatched; undispatched_steps ].

Lemma fragmentPrompt_dispatched_last (frag : option Core.FragmentRef)
    (template : option PromptTemplate) :
  steps dispatched_last (fragmentPrompt parseProject parseText frag template).
Proof. last_steps. Qed.

Lemma fragmentRefine_dispatched_last :
  steps dispatched_last (fragmentRefine parseProject parseText).
Proof. last_steps. Qed.

(** X19. A run of the prompt flow or of the refinement flow dispatches
    at most one request, and the dispatch is the last thing it does:
    the events of the run are events that are no requests, followed by
    nothing, and then the recorded request is the one before; or
    followed by one request, and then the recorded request is that
    request. *)
Theorem flows_dispatch_last
    (frag : option Core.FragmentRef) (template : option PromptTemplate)
    (w : World) :
  let prompt := fragmentPrompt parseProject parseText frag template in
  let refine := fragmentRefine parseProject parseText in
  dispatched_last w (trace prompt w) (exec prompt w) /\
  dispatched_last w (trace refine w) (exec refine w).
Proof.
  cbv zeta; split.
  - destruct (fragmentPrompt_dispatched_last frag template w)
      as (evs & Hlog & Hr).
    rewrite (trace_of_log _ _ _ Hlog); exact Hr.
  - destruct (fragmentRefine_dispatched_last w) as (evs & Hlog & Hr).
    rewrite (trace_of_log _ _ _ Hlog); exact Hr.
Qed.

(** *** The template of a request *)

Lemma requests_for_refl (t : PromptTemplate) (w : World) :
  requests_for t w [] w.
Proof. constructor. Qed.

Lemma requests_for_trans (t : PromptTemplate) (w1 w2 w3 : World)
    (evs1 evs2 : list Event) :
  requests_for t w1 evs1 w2 -> requests_for t w2 evs2 w3 ->
  requests_for t w1 (evs1 ++ evs2) w3.
Proof. intros Ha Hb; apply Forall_app; split; assumption. Qed.

Lemma requests_for_undispatched (t : PromptTemplate) {A} (m : Cmd A) :
  steps undispatched m -> steps (requests_for t) m.
Proof.
  intros Hm w; destruct (Hm w) as (evs & Hlog & Hall & _).
  exists evs; split; [exact Hlog|].
  eapply Forall_impl; [exact Hall|].
  intros [] H; cbn in *; try exact I; discriminate.
Qed.

Lemma steps_bind_ret (R : World -> list Event -> World -> Prop)
    {A B} (a : A) (k : A -> Cmd B) :
  steps R (k a) -> steps R (bind (ret a) k).
Proof. intros H w; exact (H w). Qed.

Lemma keeps_bind (R : World -> list Event -> World -> Prop)
    {A B} (m : Cmd A) (k : A -> Cmd B) (w : World) :
  (forall w1 w2 w3 evs1 evs2,
      R w1 evs1 w2 -> R w2 evs2 w3 -> R w1 (evs1 ++ evs2) w3) ->
  keeps R m w ->
  (forall a w1, m w = (Returned a, w1) -> keeps R (k a) w1) ->
  keeps R (bind m k) w.
Proof.
  intros Htrans (evs1 & Hlog1 & HR1) Hk.
  unfold keeps, exec, bind in *.
  destruct (m w) as [[a|e] w1]; cbn in *.
  - destruct (Hk a w1 eq_refl) as (evs2 & Hlog2 & HR2).
    exists (evs1 ++ evs2); split.
    + rewrite Hlog2, Hlog1, app_assoc; reflexivity.
    + eapply Htrans; eassumption.
  - exists evs1; split; assumption.
Qed.

Lemma fragmentExecute_requests_for (t : PromptTemplate) (fragment : Fragment) :
  steps (requests_for t) (fragmentExecute (Some fragment) (title t) (id t)).
Proof.
  intros w; eexists; split.
  - unfold exec, fragmentExecute, bind, gets; cbn.
    rewrite <- app_assoc; reflexivity.
  - constructor; [exact I|].
    constructor; [|constructor].
    split; [reflexivity|].
    eexists; split; reflexivity.
Qed.

Lemma fragmentPrompt_requests_for (t : PromptTemplate)
    (frag : option Core.FragmentRef) :
  steps (requests_for t)
        (fragmentPrompt parseProject parseText frag (Some t)).
Proof.
  pose proof (requests_for_refl t) as Hrefl.
  pose proof (requests_for_trans t) as Htrans.
  unfold fragmentPrompt.
  apply steps_bind; [exact Htrans | | intros saved].
  { apply requests_for_undispatched; undispatched_steps. }
  destruct (negb saved); [apply steps_ret; exact Hrefl|].
  apply steps_bind; [exact Htrans | | intros _].
  { apply requests_for_undispatched; undispatched_steps. }
  apply steps_bind; [exact Htrans | | intros fragment].
  { apply requests_for_undispatched; undispatched_steps. }
  destruct fragment as [fragment|].
  - apply steps_bind_ret; cbv beta iota.
    apply fragmentExecute_requests_for.
  - apply requests_for_undispatched; undispatched_steps.
Qed.

(** X20. When the prompt flow is given a template, every request it
    dispatches is made for that template: the label of the request is
    the title of the template, and its template is looked up by the
    [id] of the given one in the project of the target fragment. *)
Theorem fragmentPrompt_request_for_template
    (frag : option Core.FragmentRef) (t : PromptTemplate) (w : World) :
  Forall (request_for t)
         (trace (fragmentPrompt parseProject parseText frag (Some t)) w).
Proof.
  destruct (fragmentPrompt_requests_for t frag w) as (evs & Hlog & Hr).
  rewrite (trace_of_log _ _ _ Hlog); exact Hr.
Qed.

Lemma fragmentRefine_keeps_template
    (w : World) (r : AiRequest) (t : PromptTemplate) :
  aiRequest w = Some r ->
  opt_template (options r) = Some t ->
  keeps (requests_for t) (fragmentRefine parseProject parseText) w.
Proof.
  intros Hr Ht.
  pose proof (requests_for_refl t) as Hrefl.
  pose proof (requests_for_trans t) as Htrans.
  unfold fragmentRefine.
  apply keeps_bind; [exact Htrans | | intros [] w1 H1].
  { apply (requests_for_undispatched t cancelAiRequest); undispatched_steps. }
  assert (Hr1 : aiRequest w1 = Some r).
  { injection H1 as <-; exact Hr. }
  apply keeps_bind; [exact Htrans | | intros fragment w2 H2].
  { apply (requests_for_undispatched t (resolveSpec parseText None));
      undispatched_steps. }
  assert (Hr2 : aiRequest w2 = Some r).
  { destruct (resolveSpec_resolving None w1) as (evs & _ & _ & _ & Ha & _).
    unfold exec in Ha; rewrite H2 in Ha; cbn in Ha; congruence. }
  destruct fragment as [fragment|]; [|apply (steps_ret _ Hrefl)].
  apply keeps_bind; [exact Htrans | | intros request w3 H3].
  { apply (steps_gets _ Hrefl). }
  injection H3 as <- <-; rewrite Hr2; cbv zeta iota; rewrite Ht.
  match goal with
  | |- keeps _ ?m _ =>
      assert (Hsteps : steps (requests_for t) m); [|exact (Hsteps w2)]
  end.
  apply steps_bind; [exact Htrans | | intros refinement].
  { apply requests_for_undispatched; undispatched_steps. }
  destruct (negb (truthy refinement)); [apply steps_ret; exact Hrefl|].
  do 5 (apply steps_bind;
        [exact Htrans
        | apply requests_for_undispatched; undispatched_steps
        | intros ]).
  apply fragmentPrompt_requests_for.
Qed.

(** X21. When the recorded request has a template, every request the
    refinement flow dispatches is made for that same template: the run
    after a refinement asks for no new choice of template. *)
Theorem fragmentRefine_same_template
    (w : World) (r : AiRequest) (t : PromptTemplate) :
  aiRequest w = Some r ->
  opt_template (options r) = Some t ->
  Forall (request_for t) (trace (fragmentRefine parseProject parseText) w).
Proof.
  intros Hr Ht.
  destruct (fragmentRefine_keeps_template w r t Hr Ht) as (evs & Hlog & Hall).
  rewrite (trace_of_log _ _ _ Hlog); exact Hall.
Qed.

(** *** Running a sequence step by step *)

Lemma bind_gets {A B} (f : World -> A) (k : A -> Cmd B) (w : World) :
  bind (gets f) k w = k (f w) w.
Proof. reflexivity. Qed.

Lemma bind_ret {A B} (a : A) (k : A -> Cmd B) (w : World) :
  bind (ret a) k w = k a w.
Proof. reflexivity. Qed.

Lemma bind_perform {B} (f : World -> World) (k : unit -> Cmd B) (w : World) :
  bind (perform f) k w = k tt (f w).
Proof. reflexivity. Qed.

Lemma bind_assoc {A B C} (m : Cmd A) (k : A -> Cmd B) (k' : B -> Cmd C)
    (w : World) :
  bind (bind m k) k' w = bind m (fun a => bind (k a) k') w.
Proof.
  unfold bind; destruct (m w) as [[a|e] w1]; reflexivity.
Qed.

Lemma bind_returned {A B} (m : Cmd A) (k : A -> Cmd B) (w w1 : World) (a : A) :
  m w = (Returned a, w1) -> bind m k w = k a w1.
Proof. intros H; unfold bind; rewrite H; reflexivity. Qed.

Lemma bind_thrown {A B} (m : Cmd A) (k : A -> Cmd B) (w w1 : World)
    (e : string) :
  m w = (Thrown e, w1) -> bind m k w = (Thrown e, w1).
Proof. intros H; unfold bind; rewrite H; reflexivity. Qed.

(** *** The start of the prompt flow *)

Lemma running_after_idle (evs : list Event) :
  Forall (fun e => is_request e = false) evs -> running_after 0 evs = 0.
Proof.
  induction 1 as [|e rest He _ IH]; [reflexivity|].
  unfold running_after in *; cbn [fold_left].
  destruct e; cbn in *; try exact IH; discriminate.
Qed.

(** X22. When no open document is dirty, the prompt flow first
    re-parses the workspace and then cancels, before it resolves
    anything; the running calls it leaves are those replayed from the
    events after that cancellation, whatever was running before.  So a
    flow that then ends without a dispatch has still cancelled the
    running call. *)
Theorem fragmentPrompt_clean_start
    (frag : option Core.FragmentRef) (template : option PromptTemplate)
    (w : World) :
  existsb isDirty (textDocuments w) = false ->
  let prompt := fragmentPrompt parseProject parseText frag template in
  exists rest,
    trace prompt w = EvParseWorkspace :: EvCancelAiRequest :: rest /\
    inflight (exec prompt w) = running_after 0 rest /\
    (Forall (fun e => is_request e = false) rest ->
     inflight (exec prompt w) = 0).
Proof.
  intros Hclean; cbv zeta.
  destruct (orderly_fragmentPrompt parseProject parseText frag template w)
    as (evs & Hlog & Hrun & _).
  assert (Hhead : exists rest, evs = EvParseWorkspace :: EvCancelAiRequest :: rest).
  { revert Hlog; unfold exec, fragmentPrompt, checkSaved.
    rewrite bind_assoc, bind_gets, Hclean, bind_assoc.
    unfold parseWorkspace; rewrite bind_perform, bind_ret.
    cbn [negb]; unfold cancelAiRequest; rewrite bind_perform.
    match goal with
    | |- context [snd (?m ?w2)] =>
        assert (Htail : steps unsaved m)
          by (pose proof unsaved_refl; pose proof unsaved_trans;
              steps_through);
        destruct (Htail w2) as (rest & Hrest & _)
    end.
    unfold exec in Hrest; rewrite Hrest; cbn [log set_request set_project emit].
    rewrite <- !app_assoc; intros Heq.
    apply app_inv_head in Heq; exists rest; symmetry; exact Heq. }
  destruct Hhead as [rest ->].
  exists rest; rewrite (trace_of_log _ _ _ Hlog).
  split; [reflexivity|].
  assert (Hcount : inflight (exec (fragmentPrompt parseProject parseText
                                     frag template) w)
                   = running_after 0 rest) by exact Hrun.
  split; [exact Hcount|].
  intros Hnone; rewrite Hcount; apply running_after_idle; exact Hnone.
Qed.

(** *** What the refinement flow writes *)


Lemma resolving_no_write (evs : list Event) :
  Forall (fun e => is_pick e || is_parse_document e = true) evs ->
  Forall (fun e => is_write e = false) evs.
Proof.
  intros Hall; eapply Forall_impl; [exact Hall|].
  intros [] H; cbn in *; try reflexivity; discriminate.
Qed.


(** *** A refinement that is not given *)

Lemma resolving_no_request (evs : list Event) :
  Forall (fun e => is_pick e || is_parse_document e = true) evs ->
  Forall (fun e => is_request e = false) evs.
Proof.
  intros Hall; eapply Forall_impl; [exact Hall|].
  intros [] H; cbn in *; try reflexivity; discriminate.
Qed.

(** X24. When the input box of the refinement flow is dismissed or
    answered with the empty string, the flow has cancelled and stops:
    it dispatches no request and writes no file, no call is left
    running, and the recorded request and the files on disk are as
    before. *)
Theorem fragmentRefine_not_given (w : World) :
  truthy (default None (head (inputAnswers w))) = false ->
  let w' := exec (fragmentRefine parseProject parseText) w in
  Forall (fun e => is_request e = false /\ is_write e = false)
         (trace (fragmentRefine parseProject parseText) w) /\
  inflight w' = 0 /\
  aiRequest w' = aiRequest w /\
  files w' = files w.
Proof.
  intros Hfalsy; cbv zeta.
  unfold trace, exec.
  destruct (fragmentRefine parseProject parseText w) as [res wf] eqn:Hrun.
  cbn [snd].
  unfold fragmentRefine in Hrun.
  unfold cancelAiRequest at 1 in Hrun; rewrite bind_perform in Hrun.
  set (w1 := set_request _ _ _) in Hrun.
  destruct (resolveSpec_resolving None w1)
    as (evs & Hlog & Hquiet & _ & Hreq & Hcount & _ & _ & Hfiles & Hin).
  pose proof (resolving_no_write _ Hquiet) as Hw.
  pose proof (resolving_no_request _ Hquiet) as Hr.
  unfold exec in Hlog, Hreq, Hcount, Hfiles, Hin.
  change (aiRequest w1) with (aiRequest w) in Hreq.
  change (inflight w1) with 0 in Hcount.
  change (files w1) with (files w) in Hfiles.
  assert (Hpre : Forall (fun e => is_request e = false /\ is_write e = false)
                        (EvCancelAiRequest :: evs)).
  { constructor; [split; reflexivity|].
    apply Forall_and; split; assumption. }
  assert (Hstop : forall extra,
             Forall (fun e => is_request e = false /\ is_write e = false)
                    extra ->
             forall w2 w3,
               log w2 = log w ++ [EvCancelAiRequest] ++ evs ->
               log w3 = log w2 ++ extra ->
               Forall (fun e => is_request e = false /\ is_write e = false)
                      (drop (length (log w)) (log w3))).
  { intros extra Hextra w2 w3 H2 H3.
    rewrite H3, H2, <- app_assoc, drop_app_length.
    apply Forall_app; split; [exact Hpre | exact Hextra]. }
  destruct (resolveSpec parseText None w1) as [[fragment|e] w2] eqn:Hres;
    cbn [snd fst] in Hlog, Hreq, Hcount, Hfiles, Hin;
    cbn [log emit set_request w1] in Hlog; rewrite <- app_assoc in Hlog.
  2: { rewrite (bind_thrown _ _ _ _ _ Hres) in Hrun.
       injection Hrun as _ <-.
       split; [apply (Hstop [] ltac:(constructor) w2 w2 Hlog);
               rewrite app_nil_r; reflexivity|].
       repeat split; cbn; congruence. }
  rewrite (bind_returned _ _ _ _ _ Hres) in Hrun.
  destruct fragment as [fragment|].
  2: { injection Hrun as _ <-.
       split; [apply (Hstop [] ltac:(constructor) w2 w2 Hlog);
               rewrite app_nil_r; reflexivity|].
       repeat split; cbn; congruence. }
  rewrite bind_gets in Hrun.
  destruct (aiRequest w2) as [request|] eqn:Hrequest.
  2: { injection Hrun as _ <-.
       split; [apply (Hstop [] ltac:(constructor) w2 w2 Hlog);
               rewrite app_nil_r; reflexivity|].
       repeat split; cbn; congruence. }
  cbv zeta in Hrun.
  unfold bind at 1, showInputBox at 1 in Hrun.
  set (box := EvShowInputBox _ _) in Hrun.
  cbn [inputAnswers emit] in Hrun.
  rewrite Hin in Hrun; change (inputAnswers w1) with (inputAnswers w) in Hrun.
  destruct (inputAnswers w) as [|answer answers] eqn:Hanswers.
  { injection Hrun as _ <-.
    split; [apply (Hstop [box] ltac:(repeat constructor) w2 _ Hlog);
            reflexivity|].
    repeat split; cbn; congruence. }
  change (truthy answer = false) in Hfalsy.
  rewrite Hfalsy in Hrun; cbn [negb] in Hrun.
  injection Hrun as _ <-.
  split; [apply (Hstop [box] ltac:(repeat constructor) w2 _ Hlog);
          reflexivity|].
  repeat split; cbn; congruence.
Qed.

End FlowProperties.

(** ** The further properties on the sample data *)

Lemma refinedContent_beyond_end_sample :
  length (Text.split_lf Sample.fiveLines) <= 9 /\
  refinedContent Sample.fiveLines 9 "do X"
    = Sample.fiveLines +:+ String Text.LF "-   do X".
Proof.
  assert (H : length (Text.split_lf Sample.fiveLines) <= 9)
    by (apply Nat.leb_le; reflexivity).
  split; [exact H|].
  exact (refinedContent_beyond_end Sample.fiveLines 9 "do X" H).
Defined.

Lemma refinedContent_undo_sample :
  Text.has_LF "do X" = false /\
  3 <= length (Text.split_lf Sample.fiveLines) /\
  Text.join_lf
    (delete 3 (Text.split_lf (refinedContent Sample.fiveLines 3 "do X")))
    = Sample.fiveLines.
Proof.
  assert (H : 3 <= length (Text.split_lf Sample.fiveLines))
    by (apply Nat.leb_le; reflexivity).
  split; [reflexivity|]. split; [exact H|].
  exact (refinedContent_undo Sample.fiveLines 3 "do X" eq_refl H).
Defined.

Lemma pickTemplate_returns_applicable_sample :
  result (pickTemplate Sample.rootA None) (Scenario.picking [Some 1])
    = Returned (Some Sample.gen) /\
  In Sample.gen (applicableTemplates Sample.rootA).
Proof.
  assert (H : result (pickTemplate Sample.rootA None)
                     (Scenario.picking [Some 1])
              = Returned (Some Sample.gen)) by reflexivity.
  split; [exact H|].
  exact (proj1 (pickTemplate_returns_applicable _ _ _ _ H)).
Defined.

Lemma resolveSpec_next_sample :
  aiRequest (Sample.refining None) = Some Sample.lastRequest /\
  opt_fragment (options Sample.lastRequest) = Some Sample.rootA /\
  resolveSpec Sample.parseText None (Sample.refining None)
    = resolveSpec Sample.parseText
        (Some (Core.RefString "root@a.gpspec.md")) (Sample.refining None).
Proof.
  split; [reflexivity|]. split; [reflexivity|].
  exact (resolveSpec_next Sample.parseText (Sample.refining None)
           Sample.lastRequest Sample.rootA eq_refl eq_refl).
Defined.

Lemma resolveSpec_spec_path_sample :
  Text.is_gpspec_path "a.gpspec.md" = true /\
  resolveSpec Sample.parseText (Some (Core.RefString "a.gpspec.md"))
              Sample.idle
    = (Returned (Some Sample.rootA), Sample.idle).
Proof.
  split; [reflexivity|].
  exact (proj1 (resolveSpec_spec_path_silent
                  Sample.parseText "a.gpspec.md" Sample.idle eq_refl)).
Defined.

Lemma resolveSpec_unreferenced_closed_sample :
  Text.is_gpspec_path "nowhere.ts" = false /\
  resolveSpec Sample.parseText (Some (Core.RefString "nowhere.ts"))
              Sample.idle
    = (Returned None, Sample.idle).
Proof.
  split; [reflexivity|].
  exact (resolveSpec_unreferenced_closed
           Sample.parseText "nowhere.ts" Sample.idle
           eq_refl eq_refl eq_refl).
Defined.

Lemma resolveSpec_unreferenced_open_sample :
  Text.is_gpspec_path "notes.ts" = false /\
  result (resolveSpec Scenario.emptyParse (Some (Core.RefString "notes.ts")))
         Scenario.notesOpen
    = Thrown "TypeError".
Proof.
  split; [reflexivity|].
  exact (proj2 (resolveSpec_unreferenced_open
                  Scenario.emptyParse "notes.ts" Scenario.notesOpen
                  (mkTextDocument "notes.ts" false)
                  eq_refl eq_refl eq_refl)).
Defined.

Lemma fragmentRefine_without_request_sample :
  aiRequest Sample.idle = None /\
  trace (fragmentRefine Sample.parseProject Sample.parseText) Sample.idle
    = [EvCancelAiRequest].
Proof.
  split; [reflexivity|].
  exact (proj1 (proj2 (fragmentRefine_without_request
                         Sample.parseProject Sample.parseText Sample.idle
                         eq_refl))).
Defined.

Lemma fragmentRefine_same_template_sample :
  aiRequest (Sample.refining (Some "do X")) = Some Sample.lastRequest /\
  opt_template (options Sample.lastRequest) = Some Sample.gen /\
  Forall (request_for Sample.gen)
         (trace (fragmentRefine Sample.parseProject Sample.parseText)
                (Sample.refining (Some "do X"))).
Proof.
  split; [reflexivity|]. split; [reflexivity|].
  exact (fragmentRefine_same_template
           Sample.parseProject Sample.parseText
           (Sample.refining (Some "do X")) Sample.lastRequest Sample.gen
           eq_refl eq_refl).
Defined.

Lemma fragmentPrompt_clean_start_sample :
  existsb isDirty (textDocuments Sample.idle) = false /\
  exists rest,
    trace (fragmentPrompt Sample.parseProject Sample.parseText
                          (Some (Core.RefFragment Sample.rootA))
                          (Some Sample.gen))
          Sample.idle
      = EvParseWorkspace :: EvCancelAiRequest :: rest.
Proof.
  split; [reflexivity|].
  destruct (fragmentPrompt_clean_start
              Sample.parseProject Sample.parseText
              (Some (Core.RefFragment Sample.rootA)) (Some Sample.gen)
              Sample.idle eq_refl) as (rest & Htrace & _).
  exists rest; exact Htrace.
Defined.


Lemma fragmentRefine_not_given_sample :
  truthy (default None (head (inputAnswers (Sample.refining None)))) = false /\
  inflight (exec (fragmentRefine Sample.parseProject Sample.parseText)
                 (Sample.refining None)) = 0.
Proof.
  split; [reflexivity|].
  exact (proj1 (proj2 (fragmentRefine_not_given
                         Sample.parseProject Sample.parseText
                         (Sample.refining None) eq_refl))).
Defined.
